(** * askgit: the [stats] virtual table of package gitqlite

    A shallow embedding of [pkg/gitqlite/git_stats.go]: the table module
    ([Create], [Connect]), the table instance ([Open], [BestIndex]) and
    the cursor ([Filter], [Next], [Column], [EOF]) that walks the pairs
    (commit, changed file) of a repository.

    The go-git library and the SQLite driver are collaborators of this
    code: what they return is data of the model (a repository is the
    record of the answers go-git gives about it), never computed here. *)

From Stdlib Require Import ZArith List String Ascii Bool Lia Sorted.
Import ListNotations.

Local Open Scope string_scope.
Local Open Scope list_scope.
Local Open Scope Z_scope.

(** ** Go values *)

(** The sentinel errors the code compares against, and every other error. *)
Inductive error : Type :=
| ErrReferenceNotFound          (* plumbing.ErrReferenceNotFound *)
| io_EOF                        (* io.EOF *)
| ErrOther (msg : string).

Definition error_eqb (a b : error) : bool :=
  match a, b with
  | ErrReferenceNotFound, ErrReferenceNotFound => true
  | io_EOF, io_EOF => true
  | ErrOther x, ErrOther y => String.eqb x y
  | _, _ => false
  end.

(** A Go result pair [(v, err)]: [Ok v] is [(v, nil)], [Err e] is
    [(zero, e)]. *)
Inductive outcome (A : Type) : Type :=
| Ok (a : A)
| Err (e : error).
Arguments Ok {A} a.
Arguments Err {A} e.

(** Run-time panics of the Go code. *)
Inductive panic : Type :=
| IndexOutOfRange
| SliceBoundsOutOfRange
| NilDereference.

(** A call either returns or panics. *)
Inductive run (A : Type) : Type :=
| Returns (a : A)
| Panics (p : panic).
Arguments Returns {A} a.
Arguments Panics {A} p.

(** Go's [int] is 64 bits wide and signed; [+] wraps around. *)
Definition int_max : Z := 2 ^ 63 - 1.
Definition wrap_int (z : Z) : Z := (z + 2 ^ 63) mod 2 ^ 64 - 2 ^ 63.
Definition int_add (a b : Z) : Z := wrap_int (a + b).

(** [len] of a slice and of a string (a string is its bytes). *)
Definition len {A : Type} (l : list A) : Z := Z.of_nat (List.length l).
Definition strlen (s : string) : Z := Z.of_nat (String.length s).

(** [l[i]] on a slice: panics out of range. *)
Definition index {A : Type} (l : list A) (i : Z) : run A :=
  if (0 <=? i) && (i <? len l) then
    match nth_error l (Z.to_nat i) with
    | Some a => Returns a
    | None => Panics IndexOutOfRange
    end
  else Panics IndexOutOfRange.

(** [s[lo:hi]] on a string: panics unless [0 <= lo <= hi <= len(s)]. *)
Definition string_slice (s : string) (lo hi : Z) : run string :=
  if (0 <=? lo) && (lo <=? hi) && (hi <=? strlen s) then
    Returns (substring (Z.to_nat lo) (Z.to_nat (hi - lo)) s)
  else Panics SliceBoundsOutOfRange.

(** ** go-git objects, as the code reads them *)

Module object.

(** [object.FileStat]. *)
Record FileStat : Type := {
  Name : string;
  Addition : Z;
  Deletion : Z
}.

Definition FileStats : Type := list FileStat.

(** [object.File]: its name, and what [Lines()] returns. *)
Record File : Type := {
  File_Name : string;
  Lines : outcome (list string)
}.

(** [object.FileIter]: the results of the successive [Next()] calls
    before the iterator answers [io.EOF] for good; an [Err] item is a
    call that returned [(nil, err)]. *)
Definition FileIter : Type := list (outcome File).

(** [object.Commit]: hash, parents, committer time, and what
    [Stats()] and [Files()] return. *)
Record Commit : Type := {
  Hash : string;
  ParentHashes : list string;
  Committer_When : Z;
  Stats : outcome FileStats;
  Files : outcome FileIter
}.

Definition ID (c : Commit) : string := Hash c.
Definition NumParents (c : Commit) : Z := len (ParentHashes c).

(** [object.CommitIter]: the results of the successive [Next()] calls
    before [io.EOF]. *)
Definition CommitIter : Type := list (outcome Commit).

(** [iter.Next()] with the iterator that is left. *)
Definition CommitIter_Next (it : CommitIter) : outcome Commit * CommitIter :=
  match it with
  | [] => (Err io_EOF, [])
  | x :: rest => (x, rest)
  end.

End object.

Module git.

Inductive LogOrder : Type :=
| LogOrderDefault
| LogOrderDFS
| LogOrderDFSPost
| LogOrderBSF
| LogOrderCommitterTime.

(** The fields of [git.LogOptions] the code sets. *)
Record LogOptions : Type := {
  From : string;
  Order : LogOrder
}.

(** [git.Repository]: what [Head()] resolves to (the hash of the
    reference), the commit objects by hash, and what [Log] returns. *)
Record Repository : Type := {
  Head : outcome string;
  CommitObject : string -> option object.Commit;
  Log : LogOptions -> outcome object.CommitIter
}.

End git.

(** ** The SQLite driver and the other collaborators of the table module *)

Module sqlite3.

Record InfoConstraint : Type := {
  Column : Z;
  Op : Z;
  Usable : bool
}.

Record InfoOrderBy : Type := {
  OrderBy_Column : Z;
  Desc : bool
}.

(** [sqlite3.IndexResult], without its two float estimates. *)
Record IndexResult : Type := {
  Used : list bool;
  IdxNum : Z;
  IdxStr : string;
  AlreadyOrdered : bool
}.

(** What a [Column] call hands to the SQLite context. *)
Inductive Result : Type :=
| ResultText (s : string)
| ResultInt (i : Z).

End sqlite3.

(** The calls [Create] and [Open] make outside this package. *)
Class Host : Type := {
  SQLiteConn : Type;
  (** [c.DeclareVTab(sql)]: the connection afterwards and the error. *)
  DeclareVTab : SQLiteConn -> string -> SQLiteConn * option error;
  (** [fmt.Sprintf] of one string under the verb [%q]. *)
  Sprintf_q : string -> string;
  (** [git.PlainOpen(path)]. *)
  PlainOpen : string -> outcome git.Repository
}.

(** ** The table module and the table instance *)

Module Table.

Record gitStatsTable : Type := {
  repoPath : string;
  repo : option git.Repository
}.

End Table.

Definition LF : string := String (ascii_of_nat 10) EmptyString.
Definition TAB : string := String (ascii_of_nat 9) EmptyString.

(** The text [Create] declares, with [%q] already formatted. *)
Definition schema (quoted_name : string) : string :=
  (LF ++ TAB ++ TAB ++ "CREATE TABLE " ++ quoted_name ++ " (" ++
   LF ++ TAB ++ TAB ++ TAB ++ "commit_id TEXT," ++
   LF ++ TAB ++ TAB ++ TAB ++ "file TEXT," ++
   LF ++ TAB ++ TAB ++ TAB ++ "additions INT(10)," ++
   LF ++ TAB ++ TAB ++ TAB ++ "deletions INT(10)" ++
   LF ++ TAB ++ TAB ++ ")")%string.

(** ** The cursor *)

Module Cursor.

Record statsCursor : Type := {
  repo : option git.Repository;
  current : option object.Commit;
  stats : object.FileStats;
  statIndex : Z;
  commitIter : option object.CommitIter
}.

Definition set_current (vc : statsCursor) (c : option object.Commit) :=
  {| repo := repo vc; current := c; stats := stats vc;
     statIndex := statIndex vc; commitIter := commitIter vc |}.

Definition set_stats (vc : statsCursor) (s : object.FileStats) :=
  {| repo := repo vc; current := current vc; stats := s;
     statIndex := statIndex vc; commitIter := commitIter vc |}.

Definition set_statIndex (vc : statsCursor) (i : Z) :=
  {| repo := repo vc; current := current vc; stats := stats vc;
     statIndex := i; commitIter := commitIter vc |}.

Definition set_commitIter (vc : statsCursor) (it : option object.CommitIter) :=
  {| repo := repo vc; current := current vc; stats := stats vc;
     statIndex := statIndex vc; commitIter := it |}.

(** The literal [&statsCursor{repo: r}]: every other field is zero. *)
Definition new_statsCursor (r : option git.Repository) : statsCursor :=
  {| repo := r; current := None; stats := []; statIndex := 0;
     commitIter := None |}.

End Cursor.

Import Table Cursor.

Section TableModule.
Context `{Host}.

Definition Create (c : SQLiteConn) (args : list string)
  : SQLiteConn * run (outcome gitStatsTable) :=
  match index args 0 with
  | Panics p => (c, Panics p)
  | Returns name =>
    let (c', err) := DeclareVTab c (schema (Sprintf_q name)) in
    match err with
    | Some e => (c', Returns (Err e))
    | None =>
      match index args 3 with
      | Panics p => (c', Panics p)
      | Returns a3 =>
        match string_slice a3 1 (strlen a3 - 1) with
        | Panics p => (c', Panics p)
        | Returns path =>
          (c', Returns (Ok {| repoPath := path; Table.repo := None |}))
        end
      end
    end
  end.

Definition Connect (c : SQLiteConn) (args : list string)
  : SQLiteConn * run (outcome gitStatsTable) :=
  Create c args.

(** [Open]: the table afterwards ([v.repo] is assigned) and the cursor. *)
Definition Open (v : gitStatsTable) : gitStatsTable * outcome statsCursor :=
  match PlainOpen (repoPath v) with
  | Err e => (v, Err e)
  | Ok r =>
    let v' := {| repoPath := repoPath v; Table.repo := Some r |} in
    (v', Ok (new_statsCursor (Table.repo v')))
  end.

End TableModule.

Definition BestIndex (v : gitStatsTable) (cst : list sqlite3.InfoConstraint)
  (ob : list sqlite3.InfoOrderBy) : outcome sqlite3.IndexResult :=
  let dummy := repeat false (List.length cst) in
  Ok {| sqlite3.Used := dummy; sqlite3.IdxNum := 0; sqlite3.IdxStr := "";
        sqlite3.AlreadyOrdered := false |}.

(** [Column]: what the context received (nothing for a column outside
    0..3) and the error returned. *)
Definition Column (vc : statsCursor) (col : Z)
  : run (option sqlite3.Result * option error) :=
  let commit := current vc in
  if col =? 0 then
    match commit with
    | None => Panics NilDereference
    | Some c => Returns (Some (sqlite3.ResultText (object.ID c)), None)
    end
  else if col =? 1 then
    match index (stats vc) (statIndex vc) with
    | Panics p => Panics p
    | Returns st => Returns (Some (sqlite3.ResultText (object.Name st)), None)
    end
  else if col =? 2 then
    match index (stats vc) (statIndex vc) with
    | Panics p => Panics p
    | Returns st => Returns (Some (sqlite3.ResultInt (object.Addition st)), None)
    end
  else if col =? 3 then
    match index (stats vc) (statIndex vc) with
    | Panics p => Panics p
    | Returns st => Returns (Some (sqlite3.ResultInt (object.Deletion st)), None)
    end
  else Returns (None, None).

(** The body of [Filter] on the repository [r] that [vc.repo] points to. *)
Definition Filter_on (r : git.Repository) (vc : statsCursor)
  : run (statsCursor * option error) :=
  match git.Head r with
  | Err e =>
    if error_eqb e ErrReferenceNotFound then Returns (vc, None)
    else Returns (vc, Some e)
  | Ok headHash =>
    match git.Log r {| git.From := headHash;
                       git.Order := git.LogOrderCommitterTime |} with
    | Err e => Returns (vc, Some e)
    | Ok iter =>
      let (res, iter') := object.CommitIter_Next iter in
      let vc := set_commitIter vc (Some iter') in
      match res with
      | Err e => Returns (vc, Some e)
      | Ok commit =>
        match object.Stats commit with
        | Err e => Returns (vc, Some e)
        | Ok st =>
          let vc := set_stats vc st in
          let vc := set_current vc (Some commit) in
          let vc := set_statIndex vc 0 in
          Returns (vc, None)
        end
      end
    end
  end.

Definition Filter (vc : statsCursor) (idxNum : Z) (idxStr : string)
  (vals : list sqlite3.Result) : run (statsCursor * option error) :=
  match Cursor.repo vc with
  | None => Panics NilDereference
  | Some r => Filter_on r vc
  end.

(** The loop of [Next] over the files of a root commit: [stat] is the
    slice built so far.  A [files.Next()] that fails with another error
    than [io.EOF] leaves [x] nil, and [x.Lines()] dereferences it. *)
Fixpoint root_stats (files : object.FileIter) (stat : object.FileStats)
  : run (outcome object.FileStats) :=
  match files with
  | [] => Returns (Ok stat)
  | Err e :: rest =>
    if error_eqb e io_EOF then Returns (Ok stat) else Panics NilDereference
  | Ok x :: rest =>
    match object.Lines x with
    | Err e => Returns (Err e)
    | Ok lines =>
      root_stats rest
        (stat ++ [{| object.Name := object.File_Name x;
                     object.Addition := len lines;
                     object.Deletion := 0 |}])
    end
  end.

(** The statistics [Next] computes for the commit it moves to. *)
Definition next_stats (commit : object.Commit) : run (outcome object.FileStats) :=
  if object.NumParents commit =? 0 then
    match object.Files commit with
    | Err e => Returns (Err e)
    | Ok files => root_stats files []
    end
  else Returns (object.Stats commit).

Definition Next (vc : statsCursor) : run (statsCursor * option error) :=
  if len (stats vc) >? int_add (statIndex vc) 1 then
    Returns (set_statIndex vc (int_add (statIndex vc) 1), None)
  else
    let vc := set_statIndex vc 0 in
    match commitIter vc with
    | None => Panics NilDereference
    | Some it =>
      let (res, it') := object.CommitIter_Next it in
      let vc := set_commitIter vc (Some it') in
      match res with
      | Err e =>
        if error_eqb e io_EOF then Returns (set_current vc None, None)
        else Returns (vc, Some e)
      | Ok commit =>
        match next_stats commit with
        | Panics p => Panics p
        | Returns (Err e) => Returns (vc, Some e)
        | Returns (Ok st) =>
          let vc := set_stats vc st in
          let vc := set_current vc (Some commit) in
          Returns (vc, None)
        end
      end
    end.

Definition EOF (vc : statsCursor) : bool :=
  match current vc with
  | None => true
  | Some _ => false
  end.

(** ** The engine's scan

    SQLite drives a cursor by [Filter], then [EOF], [Column] for the
    columns the query reads, and [Next], until [EOF] answers true; an
    error of [Filter] or [Next] aborts the query. *)

Definition row : Type := list (option sqlite3.Result).

Inductive ending : Type :=
| Finished
| Aborted (e : error)
| Crashed (p : panic).

Fixpoint read_row (vc : statsCursor) (cols : list Z) : run row :=
  match cols with
  | [] => Returns []
  | col :: more =>
    match Column vc col with
    | Panics p => Panics p
    | Returns (v, _) =>
      match read_row vc more with
      | Panics p => Panics p
      | Returns vs => Returns (v :: vs)
      end
    end
  end.

Definition push (r : row) (res : option (list row * ending))
  : option (list row * ending) :=
  match res with
  | None => None
  | Some (rows, e) => Some (r :: rows, e)
  end.

(** The loop after [Filter]; [None] when [fuel] iterations were not
    enough. *)
Fixpoint scan_loop (fuel : nat) (cols : list Z) (vc : statsCursor)
  : option (list row * ending) :=
  match fuel with
  | O => None
  | S fuel' =>
    if EOF vc then Some ([], Finished)
    else
      match read_row vc cols with
      | Panics p => Some ([], Crashed p)
      | Returns r =>
        match Next vc with
        | Panics p => Some ([r], Crashed p)
        | Returns (_, Some e) => Some ([r], Aborted e)
        | Returns (vc', None) => push r (scan_loop fuel' cols vc')
        end
      end
  end.

Definition scan (fuel : nat) (cols : list Z) (vc : statsCursor)
  : option (list row * ending) :=
  match Filter vc 0 "" [] with
  | Panics p => Some ([], Crashed p)
  | Returns (_, Some e) => Some ([], Aborted e)
  | Returns (vc', None) => scan_loop fuel cols vc'
  end.

(** Iterations that are enough for the loop: one per position left in
    the current commit and in every commit the walker still holds, and
    one to see [EOF]. *)
Definition outcome_len {A : Type} (o : outcome (list A)) : nat :=
  match o with
  | Ok l => List.length l
  | Err _ => O
  end.

Definition weight (item : outcome object.Commit) : nat :=
  match item with
  | Ok c => S (outcome_len (object.Stats c) + outcome_len (object.Files c))
  | Err _ => 1%nat
  end.

Definition pending (it : option object.CommitIter) : nat :=
  match it with
  | Some l => list_sum (map weight l)
  | None => O
  end.

Definition scan_fuel (vc : statsCursor) : nat :=
  2 + Z.to_nat (len (stats vc) - statIndex vc) + pending (commitIter vc).

(** ** Well-formed cursors and repositories *)

(** A slice has at most [int_max] elements. *)
Definition fits {A : Type} (o : outcome (list A)) : Prop :=
  forall l, o = Ok l -> len l <= int_max.

Definition commit_fits (item : outcome object.Commit) : Prop :=
  forall c, item = Ok c -> fits (object.Stats c) /\ fits (object.Files c).

Definition iter_fits (it : option object.CommitIter) : Prop :=
  forall l, it = Some l -> Forall commit_fits l.

(** Every slice the walkers of [r] lead to fits an [int]. *)
Definition repo_fits (r : git.Repository) : Prop :=
  forall opts it, git.Log r opts = Ok it -> Forall commit_fits it.

(** The file index is 0 or points into the statistics. *)
Definition index_ok (vc : statsCursor) : Prop :=
  (statIndex vc = 0 \/ 0 <= statIndex vc < len (stats vc)) /\
  len (stats vc) <= int_max.

Definition cursor_ok (vc : statsCursor) : Prop :=
  index_ok vc /\ iter_fits (commitIter vc).



(** The cursors the engine can hold over the repository [r]: the one
    [Open] makes, and what [Filter] and [Next] leave when they return. *)
Inductive used (r : git.Repository) : statsCursor -> Prop :=
| used_open : used r (new_statsCursor (Some r))
| used_Filter vc vc' err idxNum idxStr vals :
    used r vc ->
    Filter vc idxNum idxStr vals = Returns (vc', err) ->
    used r vc'
| used_Next vc vc' err :
    used r vc ->
    Next vc = Returns (vc', err) ->
    used r vc'.

(** ** The history a walker is to list *)

(** The hashes of the commits reachable from the hash [tip] through
    parent links. *)
Inductive reachable (r : git.Repository) (tip : string) : string -> Prop :=
| reach_tip c :
    git.CommitObject r tip = Some c ->
    reachable r tip tip
| reach_parent h c p cp :
    reachable r tip h ->
    git.CommitObject r h = Some c ->
    In p (object.ParentHashes c) ->
    git.CommitObject r p = Some cp ->
    reachable r tip p.


(** ** What go-git computes

    The committer-time walker behind [Log], the lines of a file and
    the statistics of a commit without parents, as the go-git library
    computes them; the table reads them through [Log], [Lines()] and
    [Stats()]. *)







Definition newline : ascii := ascii_of_nat 10.

(** [strings.Split(content, "\n")]. *)
Fixpoint Split (s : string) : list string :=
  match s with
  | EmptyString => [EmptyString]
  | String a s' =>
    if Ascii.eqb a newline then EmptyString :: Split s'
    else
      match Split s' with
      | [] => [String a EmptyString]
      | l :: ls => String a l :: ls
      end
  end.

(** [File.Lines()] on a content: the pieces between the newlines,
    without the last piece when it is empty. *)
Definition Lines_of (content : string) : list string :=
  let splits := Split content in
  if String.eqb (last splits EmptyString) EmptyString
  then removelast splits
  else splits.

(** [strings.Count(s, "\n")]. *)
Fixpoint Count_newline (s : string) : Z :=
  match s with
  | EmptyString => 0
  | String a s' => (if Ascii.eqb a newline then 1 else 0) + Count_newline s'
  end.

(** [s[len(s)-1] == '\n'], false on the empty string. *)
Fixpoint ends_with_newline (s : string) : bool :=
  match s with
  | EmptyString => false
  | String a EmptyString => Ascii.eqb a newline
  | String _ s' => ends_with_newline s'
  end.

(** What [Stats()] adds to [Addition] for a chunk of added text. *)
Definition added_lines (s : string) : Z :=
  Count_newline s + (if ends_with_newline s then 0 else 1).

(** A file of a tree: its path, its content, and whether go-git takes
    it for binary. *)
Record Blob : Type := {
  blob_name : string;
  blob_content : string;
  blob_binary : bool
}.

(** [Stats()] of a commit without parents is computed from the patch
    between the empty tree and the tree of the commit: every file is
    added, with one chunk holding its content; a file without chunk
    (empty or binary) is left out. *)
Definition root_Stats (tree : list Blob) : object.FileStats :=
  flat_map (fun b =>
    if blob_binary b || String.eqb (blob_content b) EmptyString then []
    else [{| object.Name := blob_name b;
             object.Addition := added_lines (blob_content b);
             object.Deletion := 0 |}]) tree.

(** [Files()] of the commit, every file read without failure. *)
Definition tree_Files (tree : list Blob) : object.FileIter :=
  map (fun b => Ok {| object.File_Name := blob_name b;
                      object.Lines := Ok (Lines_of (blob_content b)) |}) tree.

(** [c] is a commit without parents whose tree holds [tree]. *)
Definition root_commit_of (c : object.Commit) (tree : list Blob) : Prop :=
  object.NumParents c = 0 /\
  object.Stats c = Ok (root_Stats tree) /\
  object.Files c = Ok (tree_Files tree).



(** The row of a query that reads the commit id only. *)
Definition commit_id_row (c : object.Commit) : row :=
  [Some (sqlite3.ResultText (object.ID c))].


(** A scan of a history without read failures: the first commit is
    measured by [Stats], the others by [next_stats]. *)
Definition readable_first (c : object.Commit) (st : object.FileStats) : Prop :=
  object.Stats c = Ok st /\ len st <= int_max.

Definition readable_next (c : object.Commit) (st : object.FileStats) : Prop :=
  next_stats c = Returns (Ok st) /\ len st <= int_max.


(** ** Hosts and repositories to run the code on *)

Definition dquote : ascii := ascii_of_nat 34.

(** Wrapping in double quotes, as [%q] does to a plain name. *)
Definition quoted (s : string) : string :=
  String dquote (s ++ String dquote EmptyString)%string.

(** A repository without commits. *)
Definition unborn_repo : git.Repository :=
  {| git.Head := Err ErrReferenceNotFound;
     git.CommitObject := fun _ => None;
     git.Log := fun _ => Err (ErrOther "reference not found") |}.

Definition text (n : nat) : list string := repeat "line" n.

Definition file (name : string) (lines : nat) : object.File :=
  {| object.File_Name := name; object.Lines := Ok (text lines) |}.

(** Scenario A: one commit [H] with [a.txt] (3 lines) and [b.txt]
    (2 lines); [answer] is what [Stats()] returns for it. *)
Definition scenarioA_commit (answer : outcome object.FileStats) : object.Commit :=
  {| object.Hash := "H";
     object.ParentHashes := [];
     object.Committer_When := 1;
     object.Stats := answer;
     object.Files := Ok [Ok (file "a.txt" 3); Ok (file "b.txt" 2)] |}.

Definition scenarioA (answer : outcome object.FileStats) : git.Repository :=
  {| git.Head := Ok "H";
     git.CommitObject := fun h =>
       if String.eqb h "H" then Some (scenarioA_commit answer) else None;
     git.Log := fun opts =>
       if String.eqb (git.From opts) "H"
       then Ok [Ok (scenarioA_commit answer)]
       else Err (ErrOther "object not found") |}.

(** Scenario B: [H1] adds [a.txt] (5 lines), [H2] changes it by
    3 added and 1 removed lines. *)
Definition commit_H1 : object.Commit :=
  {| object.Hash := "H1";
     object.ParentHashes := [];
     object.Committer_When := 1;
     object.Stats := Err (ErrOther "object not found");
     object.Files := Ok [Ok (file "a.txt" 5)] |}.

Definition commit_H2 : object.Commit :=
  {| object.Hash := "H2";
     object.ParentHashes := ["H1"];
     object.Committer_When := 2;
     object.Stats := Ok [{| object.Name := "a.txt"; object.Addition := 3;
                            object.Deletion := 1 |}];
     object.Files := Ok [Ok (file "a.txt" 7)] |}.

Definition scenarioB : git.Repository :=
  {| git.Head := Ok "H2";
     git.CommitObject := fun h =>
       if String.eqb h "H2" then Some commit_H2
       else if String.eqb h "H1" then Some commit_H1
       else None;
     git.Log := fun opts =>
       if String.eqb (git.From opts) "H2"
       then Ok [Ok commit_H2; Ok commit_H1]
       else Err (ErrOther "object not found") |}.

(** The cursor over scenario B after [Filter]. *)
Definition cursor_on_H2 : statsCursor :=
  {| Cursor.repo := Some scenarioB;
     current := Some commit_H2;
     stats := [{| object.Name := "a.txt"; object.Addition := 3;
                  object.Deletion := 1 |}];
     statIndex := 0;
     commitIter := Some [Ok commit_H1] |}.

(** A commit whose diff against its first parent changes no file, and a
    root commit without files. *)
Definition commit_same_tree : object.Commit :=
  {| object.Hash := "M";
     object.ParentHashes := ["H1"; "H2"];
     object.Committer_When := 3;
     object.Stats := Ok [];
     object.Files := Ok [Ok (file "a.txt" 5)] |}.

Definition commit_no_files : object.Commit :=
  {| object.Hash := "E";
     object.ParentHashes := [];
     object.Committer_When := 0;
     object.Stats := Err (ErrOther "object not found");
     object.Files := Ok [] |}.

Definition cursor_before (c : object.Commit) : statsCursor :=
  {| Cursor.repo := Some scenarioB;
     current := Some commit_H2;
     stats := [{| object.Name := "a.txt"; object.Addition := 3;
                  object.Deletion := 1 |}];
     statIndex := 0;
     commitIter := Some [Ok c] |}.

(** A connection that records the declared schemas and accepts them all;
    scenario B is the repository at [/repo]. *)
Definition accepting_host : Host :=
  {| SQLiteConn := list string;
     DeclareVTab := fun c sql => (sql :: c, None);
     Sprintf_q := quoted;
     PlainOpen := fun path =>
       if String.eqb path "/repo" then Ok scenarioB
       else Err (ErrOther "repository does not exist") |}.


(** The argument list SQLite hands over for
    [CREATE VIRTUAL TABLE stats USING git_stats("/repo")]. *)
Definition sample_args : list string :=
  ["git_stats"; "main"; "stats"; quoted "/repo"].

(** The rows of Scenario A, and the cursor on its first row. *)
Definition scenarioA_rows : object.FileStats :=
  [{| object.Name := "a.txt"; object.Addition := 3; object.Deletion := 0 |};
   {| object.Name := "b.txt"; object.Addition := 2; object.Deletion := 0 |}].


(** The cursor over scenario B after [Filter] and one [Next]. *)
Definition cursor_on_H1 : statsCursor :=
  {| Cursor.repo := Some scenarioB;
     current := Some commit_H1;
     stats := [{| object.Name := "a.txt"; object.Addition := 5;
                  object.Deletion := 0 |}];
     statIndex := 0;
     commitIter := Some [] |}.

(** Files that read without failure, as (name, lines), and the
    statistics [Next] builds from them for a root commit. *)
Definition readable_files (fs : list (string * list string)) : object.FileIter :=
  map (fun p => Ok {| object.File_Name := fst p; object.Lines := Ok (snd p) |})
      fs.

Definition root_rows (fs : list (string * list string)) : object.FileStats :=
  map (fun p => {| object.Name := fst p; object.Addition := len (snd p);
                   object.Deletion := 0 |}) fs.

(** ** The remaining callbacks of the table and of the cursor *)

(** [Disconnect]: the table afterwards ([v.repo] is nil) and the error. *)
Definition Disconnect (v : gitStatsTable) : gitStatsTable * option error :=
  ({| repoPath := repoPath v; Table.repo := None |}, None).

Definition Destroy (v : gitStatsTable) : option error := None.

Definition Rowid (vc : statsCursor) : outcome Z := Ok 0.

(** [Close]; [iter_Close] is what the [Close()] of go-git does to the
    walker. *)
Definition Close (iter_Close : object.CommitIter -> object.CommitIter)
  (vc : statsCursor) : statsCursor * option error :=
  let vc :=
    match commitIter vc with
    | Some it => set_commitIter vc (Some (iter_Close it))
    | None => vc
    end in
  (set_current vc None, None).

(** [n] calls of [Next] in a row, stopping at the first error or panic. *)
Fixpoint Next_times (n : nat) (vc : statsCursor)
  : run (statsCursor * option error) :=
  match n with
  | O => Returns (vc, None)
  | S n' =>
    match Next vc with
    | Panics p => Panics p
    | Returns (vc', Some e) => Returns (vc', Some e)
    | Returns (vc', None) => Next_times n' vc'
    end
  end.

(** The row of a query that reads the four columns, on the commit [c]
    and the entry [st] of its statistics. *)
Definition full_row (c : object.Commit) (st : object.FileStat) : row :=
  [Some (sqlite3.ResultText (object.ID c));
   Some (sqlite3.ResultText (object.Name st));
   Some (sqlite3.ResultInt (object.Addition st));
   Some (sqlite3.ResultInt (object.Deletion st))].

(** What a scan of the four columns is to give over commits with their
    statistics: the rows commit after commit, up to the first commit
    without statistics, where reading the file column panics. *)
Fixpoint full_rows (groups : list (object.Commit * object.FileStats))
  : list row * ending :=
  match groups with
  | [] => ([], Finished)
  | (c, st) :: more =>
    match st with
    | [] => ([], Crashed IndexOutOfRange)
    | _ :: _ =>
      let (rows, e) := full_rows more in
      (map (full_row c) st ++ rows, e)
    end
  end.

(** A cursor over scenario B with the walker [it] still to read. *)
Definition cursor_with_walker (it : object.CommitIter) : statsCursor :=
  {| Cursor.repo := Some scenarioB;
     current := Some commit_H2;
     stats := [{| object.Name := "a.txt"; object.Addition := 3;
                  object.Deletion := 1 |}];
     statIndex := 0;
     commitIter := Some it |}.

(** The rows left of the current commit, then [tail]. *)
Definition rows_from (vc : statsCursor) (c : object.Commit)
  (tail : list row * ending) : list row * ending :=
  let (rows, e) := tail in
  (map (full_row c) (skipn (Z.to_nat (statIndex vc)) (stats vc)) ++ rows, e).

(** ** The command: [cmd/root.go]

    [Run] of the root command chooses the repository and the query,
    clones a remote repository to a temporary directory, and hands the
    query to the terminal UI or to the database.  What the operating
    system and the libraries answer is a [World]; what the run does
    outside the process is a list of events. *)

Module cmd.

(** The flag variables. *)
Record Flags : Type := {
  repo : string;
  format : string;
  useGitCLI : bool;
  cui : bool;
  presetQuery : string
}.

(** The calls with an effect outside the process, with their arguments. *)
Inductive event : Type :=
| Println (e : error)
| Help
| ReadAll
| TempDir
| Clone (url dir : string) (ssh : bool)
| RemoveAll (dir : string)
| RunGUI (repo dir query : string)
| New (dir : string) (useGitCLI : bool)
| Query (query : string)
| DisplayDB (format : string).

(** How the run ends: [os.Exit(code)], or the function returns. *)
Inductive finish : Type :=
| Exit (code : Z)
| Return.

Section WithWorld.
Variables DB Rows : Type.

(** The answers of the operating system and of the libraries. *)
Record World : Type := {
  os_Getwd : outcome string;
  (** [os.Stdin.Stat()], as whether the mode has [os.ModeCharDevice]. *)
  Stdin_Stat : outcome bool;
  ioutil_ReadAll : outcome string;
  (** [tui.Queries]. *)
  Queries : string -> option string;
  cmd_Help : option error;
  (** [vcsurl.Parse], as what [remote.Remote(vcsurl.SSH)] returns. *)
  vcsurl_Parse : string -> outcome (outcome string);
  ioutil_TempDir : outcome string;
  git_Clone : string -> string -> bool -> option error;
  os_RemoveAll : string -> option error;
  filepath_Abs : string -> outcome string;
  gitqlite_New : string -> bool -> outcome DB;
  DB_Query : DB -> string -> outcome Rows;
  gitqlite_DisplayDB : Rows -> string -> option error
}.

(** A piece of the run: the events so far, and a value or the code of
    [os.Exit]. *)
Definition prog (A : Type) : Type := list event * (A + Z).

Definition ret {A : Type} (a : A) : prog A := ([], inl a).

Definition bind {A B : Type} (m : prog A) (f : A -> prog B) : prog B :=
  match m with
  | (tr, inr code) => (tr, inr code)
  | (tr, inl a) => let (tr', r) := f a in (tr ++ tr', r)
  end.

Definition emit (e : event) : prog unit := ([e], inl tt).

Definition os_Exit {A : Type} (code : Z) : prog A := ([], inr code).

Definition handleError (err : option error) : prog unit :=
  match err with
  | Some e => bind (emit (Println e)) (fun _ => os_Exit 1)
  | None => ret tt
  end.

(** [v, err := f(); handleError(err)]. *)
Definition checked {A : Type} (o : outcome A) : prog A :=
  match o with
  | Ok a => ret a
  | Err e => bind (handleError (Some e)) (fun _ => os_Exit 1)
  end.

Variable w : World.

Definition readStdin : prog (outcome string) :=
  bind (emit ReadAll) (fun _ =>
  match ioutil_ReadAll w with
  | Err e => ret (Err e)
  | Ok output => ret (Ok output)
  end).

(** The repository [Run] works on. *)
Definition choose_repo (f : Flags) (args : list string) (cwd : string)
  : string :=
  if String.eqb (repo f) "" then
    if len args >? 1 then nth 1 args "" else cwd
  else repo f.

(** The query [Run] works on. *)
Definition choose_query (f : Flags) (args : list string) (char_device : bool)
  : prog string :=
  if len args >? 0 then ret (nth 0 args "")
  else if negb char_device then
    bind readStdin checked
  else if cui f then ret ""
  else if negb (String.eqb (presetQuery f) "") then
    match Queries w (presetQuery f) with
    | Some val => ret val
    | None =>
      bind (handleError
              (Some (ErrOther ("Unknown Preset Query: " ++ presetQuery f)%string)))
           (fun _ => ret "")
    end
  else
    bind (emit Help) (fun _ =>
    bind (handleError (cmd_Help w)) (fun _ =>
    os_Exit 0)).

(** The clone of a remote repository: the temporary directory, and
    whether the removal was deferred. *)
Definition clone_remote (repo : string) : prog (string * bool) :=
  match vcsurl_Parse w repo with
  | Err _ => ret ("", false)
  | Ok remote =>
    bind (emit TempDir) (fun _ =>
    bind (checked (ioutil_TempDir w)) (fun dir =>
    let ssh := match remote with Ok _ => true | Err _ => false end in
    bind (emit (Clone repo dir ssh)) (fun _ =>
    bind (handleError (git_Clone w repo dir ssh)) (fun _ =>
    ret (dir, true)))))
  end.

(** The rest of [Run] after the clone, up to its [return].  The call of
    [tui.RunGUI] is recorded as one event.  The terminal UI behind it is
    not modelled: it opens the database on its own ([layout] calls
    [gitqlite.New]) and ends the process through [log.Panicln] when it
    fails, so a run is followed here only up to that call and after its
    return. *)
Definition run_query (f : Flags) (repo dir query : string) : prog string :=
  bind (checked (if String.eqb dir "" then filepath_Abs w repo
                 else filepath_Abs w dir)) (fun dir =>
  if cui f then
    bind (emit (RunGUI repo dir query)) (fun _ => ret dir)
  else
    bind (emit (New dir (useGitCLI f))) (fun _ =>
    bind (checked (gitqlite_New w dir (useGitCLI f))) (fun g =>
    bind (emit (Query query)) (fun _ =>
    bind (checked (DB_Query w g query)) (fun rows =>
    bind (emit (DisplayDB (format f))) (fun _ =>
    bind (handleError (gitqlite_DisplayDB w rows (format f))) (fun _ =>
    ret dir))))))).

(** The deferred function: it reads [dir] when it runs. *)
Definition deferred (cloned : bool) (dir : string) : prog unit :=
  if cloned then
    bind (emit (RemoveAll dir)) (fun _ => handleError (os_RemoveAll w dir))
  else ret tt.

Definition Run_prog (f : Flags) (args : list string) : prog unit :=
  bind (checked (os_Getwd w)) (fun cwd =>
  let repo := choose_repo f args cwd in
  bind (checked (Stdin_Stat w)) (fun char_device =>
  bind (choose_query f args char_device) (fun query =>
  bind (clone_remote repo) (fun dc =>
  bind (run_query f repo (fst dc) query) (fun dir =>
  deferred (snd dc) dir))))).

Definition Run (f : Flags) (args : list string) : list event * finish :=
  match Run_prog f args with
  | (tr, inl _) => (tr, Return)
  | (tr, inr code) => (tr, Exit code)
  end.

End WithWorld.

Arguments os_Getwd {DB Rows} w.
Arguments Stdin_Stat {DB Rows} w.
Arguments ioutil_ReadAll {DB Rows} w.
Arguments Queries {DB Rows} w.
Arguments cmd_Help {DB Rows} w.
Arguments vcsurl_Parse {DB Rows} w.
Arguments ioutil_TempDir {DB Rows} w.
Arguments git_Clone {DB Rows} w.
Arguments os_RemoveAll {DB Rows} w.
Arguments filepath_Abs {DB Rows} w.
Arguments gitqlite_New {DB Rows} w.
Arguments DB_Query {DB Rows} w.
Arguments gitqlite_DisplayDB {DB Rows} w.
Arguments readStdin {DB Rows} w.
Arguments choose_query {DB Rows} w f args char_device.
Arguments clone_remote {DB Rows} w repo.
Arguments run_query {DB Rows} w f repo dir query.
Arguments deferred {DB Rows} w cloned dir.
Arguments Run_prog {DB Rows} w f args.
Arguments Run {DB Rows} w f args.

End cmd.

(** A world in which every call succeeds; [https://host/a/b] is the
    one remote repository, without SSH. *)
Definition sample_world : cmd.World unit unit :=
  {| cmd.os_Getwd := Ok "/home/u";
     cmd.Stdin_Stat := Ok true;
     cmd.ioutil_ReadAll := Ok "SELECT 1";
     cmd.Queries := fun name =>
       if String.eqb name "commits" then Some "SELECT * FROM commits" else None;
     cmd.cmd_Help := None;
     cmd.vcsurl_Parse := fun url =>
       if String.eqb url "https://host/a/b"
       then Ok (Err (ErrOther "no ssh remote"))
       else Err (ErrOther "unable to match url");
     cmd.ioutil_TempDir := Ok "/tmp/repo1";
     cmd.git_Clone := fun _ _ _ => None;
     cmd.os_RemoveAll := fun _ => None;
     cmd.filepath_Abs := fun path => Ok path;
     cmd.gitqlite_New := fun _ _ => Ok tt;
     cmd.DB_Query := fun _ _ => Ok tt;
     cmd.gitqlite_DisplayDB := fun _ _ => None |}.

(** The same world, with a query that fails. *)
Definition failing_world : cmd.World unit unit :=
  {| cmd.os_Getwd := Ok "/home/u";
     cmd.Stdin_Stat := Ok true;
     cmd.ioutil_ReadAll := Ok "SELECT 1";
     cmd.Queries := fun _ => None;
     cmd.cmd_Help := None;
     cmd.vcsurl_Parse := fun url =>
       if String.eqb url "https://host/a/b"
       then Ok (Err (ErrOther "no ssh remote"))
       else Err (ErrOther "unable to match url");
     cmd.ioutil_TempDir := Ok "/tmp/repo1";
     cmd.git_Clone := fun _ _ _ => None;
     cmd.os_RemoveAll := fun _ => None;
     cmd.filepath_Abs := fun path => Ok path;
     cmd.gitqlite_New := fun _ _ => Ok tt;
     cmd.DB_Query := fun _ _ => Err (ErrOther "no such table");
     cmd.gitqlite_DisplayDB := fun _ _ => None |}.

Definition flags (repo preset : string) (cui : bool) : cmd.Flags :=
  {| cmd.repo := repo; cmd.format := "table"; cmd.useGitCLI := false;
     cmd.cui := cui; cmd.presetQuery := preset |}.

Definition not_RemoveAll (e : cmd.event) : Prop :=
  forall d, e <> cmd.RemoveAll d.

(** How a trace ends before [os.Exit(code)]: the error printed before
    code 1, the help before code 0. *)
Definition exit_shape (tr : list cmd.event) (code : Z) : Prop :=
  (code = 1 /\ exists tr' e, tr = tr' ++ [cmd.Println e]) \/
  (code = 0 /\ exists tr', tr = tr' ++ [cmd.Help]).

(** A repository whose walker has nothing to give. *)
Definition empty_log_repo : git.Repository :=
  {| git.Head := Ok "H";
     git.CommitObject := fun _ => None;
     git.Log := fun _ => Ok [] |}.

(** Scenario B with a commit in between that changes no file. *)
Definition repo_with_empty_commit : git.Repository :=
  {| git.Head := Ok "H2";
     git.CommitObject := fun _ => None;
     git.Log := fun _ => Ok [Ok commit_H2; Ok commit_same_tree; Ok commit_H1] |}.

(** ** Root commits and their trees *)




(** A tree with an empty file and a binary file next to a text file. *)
Definition mixed_tree : list Blob :=
  [{| blob_name := "empty"; blob_content := EmptyString;
      blob_binary := false |};
   {| blob_name := "logo.png"; blob_content := ("PNG" ++ LF)%string;
      blob_binary := true |};
   {| blob_name := "notes"; blob_content := (LF ++ "x")%string;
      blob_binary := false |}].

Definition commit_mixed : object.Commit :=
  {| object.Hash := "R";
     object.ParentHashes := [];
     object.Committer_When := 1;
     object.Stats := Ok (root_Stats mixed_tree);
     object.Files := Ok (tree_Files mixed_tree) |}.

(** ** Repositories answered by the walker *)















(** ** Slices and strings *)

Lemma index_nth {A : Type} (l : list A) (i : Z) (a : A) :
  0 <= i -> nth_error l (Z.to_nat i) = Some a -> index l i = Returns a.
Proof.
  intros Hi Hn. unfold index, len.
  assert (Z.to_nat i < List.length l)%nat by (apply nth_error_Some; congruence).
  replace (0 <=? i) with true by (symmetry; apply Z.leb_le; lia).
  replace (i <? Z.of_nat (List.length l)) with true
    by (symmetry; apply Z.ltb_lt; lia).
  simpl. rewrite Hn. reflexivity.
Qed.

Lemma index_short {A : Type} (l : list A) (i : Z) :
  nth_error l (Z.to_nat i) = None -> 0 <= i ->
  index l i = Panics IndexOutOfRange.
Proof.
  intros Hn Hi. unfold index, len.
  apply nth_error_None in Hn.
  replace (i <? Z.of_nat (List.length l)) with false
    by (symmetry; apply Z.ltb_ge; lia).
  rewrite andb_false_r. reflexivity.
Qed.

Lemma substring_prefix (p s : string) :
  substring 0 (String.length p) (p ++ s)%string = p.
Proof.
  induction p as [|a p IH]; simpl.
  - destruct s; reflexivity.
  - rewrite IH. reflexivity.
Qed.

Lemma length_append (p s : string) :
  String.length (p ++ s)%string = (String.length p + String.length s)%nat.
Proof. induction p as [|a p IH]; simpl; [reflexivity | now rewrite IH]. Qed.

(** Dropping the first and the last byte of [a ++ path ++ b]. *)
Lemma slice_strips (a b : ascii) (path : string) :
  let s := String a (path ++ String b EmptyString)%string in
  string_slice s 1 (strlen s - 1) = Returns path.
Proof.
  cbv zeta. unfold string_slice, strlen. simpl String.length.
  rewrite length_append. simpl String.length.
  set (n := String.length path).
  replace (Z.of_nat (S (n + 1)) - 1) with (Z.of_nat n + 1) by lia.
  replace ((0 <=? 1) && (1 <=? Z.of_nat n + 1) &&
           (Z.of_nat n + 1 <=? Z.of_nat (S (n + 1)))) with true.
  2:{ symmetry. rewrite !andb_true_iff, !Z.leb_le. lia. }
  replace (Z.to_nat (Z.of_nat n + 1 - 1)) with n by lia.
  change (Z.to_nat 1) with 1%nat. simpl substring.
  unfold n. rewrite substring_prefix. reflexivity.
Qed.

Lemma slice_too_short (s : string) :
  strlen s < 2 -> string_slice s 1 (strlen s - 1) = Panics SliceBoundsOutOfRange.
Proof.
  intros Hs. unfold string_slice.
  replace (1 <=? strlen s - 1) with false by (symmetry; apply Z.leb_gt; lia).
  rewrite andb_false_r. reflexivity.
Qed.

Lemma slice_long_enough (s : string) :
  2 <= strlen s -> exists path, string_slice s 1 (strlen s - 1) = Returns path.
Proof.
  intros Hs. unfold string_slice.
  replace ((0 <=? 1) && (1 <=? strlen s - 1) && (strlen s - 1 <=? strlen s))
    with true.
  2:{ symmetry. rewrite !andb_true_iff, !Z.leb_le. lia. }
  eauto.
Qed.

(** ** The table module *)

Lemma Create_declares `{Host} (c : SQLiteConn) (args : list string) (name : string) :
  nth_error args 0 = Some name ->
  fst (Create c args) = fst (DeclareVTab c (schema (Sprintf_q name))).
Proof.
  intros H0. unfold Create.
  rewrite (index_nth args 0 name (Z.le_refl 0) H0).
  destruct (DeclareVTab c (schema (Sprintf_q name))) as [c' [e|]]; simpl;
    [reflexivity|].
  destruct (index args 3) as [a3|p]; [|reflexivity].
  destruct (string_slice a3 1 (strlen a3 - 1)); reflexivity.
Qed.

(** C6: when the path argument is wrapped in a quote character on each
    side, [Create] stores the argument without its first and last byte,
    one layer exactly (quotes inside [path] stay), and [Open] opens the
    repository at that stored path. *)
Theorem C6_Create_strips_one_layer `{Host} (c : SQLiteConn)
  (args : list string) (name path : string) (q1 q2 : ascii) :
  nth_error args 0 = Some name ->
  nth_error args 3 = Some (String q1 (path ++ String q2 EmptyString)%string) ->
  snd (DeclareVTab c (schema (Sprintf_q name))) = None ->
  exists v,
    snd (Create c args) = Returns (Ok v) /\
    repoPath v = path /\
    (forall r, PlainOpen path = Ok r ->
               snd (Open v) = Ok (new_statsCursor (Some r))) /\
    (forall e, PlainOpen path = Err e -> Open v = (v, Err e)).
Proof.
  intros H0 H3 Hd.
  exists {| repoPath := path; Table.repo := None |}.
  split; [|split; [reflexivity|split]].
  - unfold Create. rewrite (index_nth args 0 name (Z.le_refl 0) H0).
    destruct (DeclareVTab c (schema (Sprintf_q name))) as [c' err].
    simpl in Hd. subst err.
    rewrite (index_nth args 3 _ ltac:(lia) H3).
    pose proof (slice_strips q1 q2 path) as Hs. cbv zeta in Hs.
    rewrite Hs. reflexivity.
  - intros r Hr. unfold Open. simpl. rewrite Hr. reflexivity.
  - intros e He. unfold Open. simpl. rewrite He. reflexivity.
Qed.

Lemma C6_Create_strips_one_layer_witness :
  exists v,
    snd (@Create accepting_host [] sample_args) = Returns (Ok v) /\
    repoPath v = "/repo" /\
    snd (@Open accepting_host v) = Ok (new_statsCursor (Some scenarioB)).
Proof.
  destruct (@C6_Create_strips_one_layer accepting_host [] sample_args
              "git_stats" "/repo" dquote dquote eq_refl eq_refl eq_refl)
    as (v & Hv & Hpath & Hopen & _).
  exists v. split; [exact Hv|]. split; [exact Hpath|].
  exact (Hopen scenarioB eq_refl).
Defined.

(** C7: [BestIndex] never fails and marks no constraint as used,
    whatever the constraints and orderings are. *)
Theorem C7_BestIndex_consumes_nothing (v : gitStatsTable)
  (cst : list sqlite3.InfoConstraint) (ob : list sqlite3.InfoOrderBy) :
  exists res,
    BestIndex v cst ob = Ok res /\
    List.length (sqlite3.Used res) = List.length cst /\
    Forall (fun used => used = false) (sqlite3.Used res).
Proof.
  eexists. split; [reflexivity|]. simpl. split.
  - apply repeat_length.
  - apply Forall_forall. intros b Hb. apply repeat_spec in Hb. exact Hb.
Qed.

(** C8: [Connect] is [Create]: on every connection and argument list it
    leaves the same connection (the same schema declared), and returns
    the same table, the same error or the same panic. *)
Theorem C8_Connect_same_as_Create `{Host} (c : SQLiteConn) (args : list string) :
  Connect c args = Create c args /\
  fst (Connect c args) = fst (Create c args) /\
  snd (Connect c args) = snd (Create c args).
Proof. unfold Connect. repeat split. Qed.

(** What [Create] does on every argument list, by cases. *)
Lemma Create_cases `{Host} (c : SQLiteConn) (args : list string) :
  match args with
  | [] => Create c args = (c, Panics IndexOutOfRange)
  | name :: _ =>
    let (c', err) := DeclareVTab c (schema (Sprintf_q name)) in
    match err with
    | Some e => Create c args = (c', Returns (Err e))
    | None =>
      match nth_error args 3 with
      | None => Create c args = (c', Panics IndexOutOfRange)
      | Some a3 =>
        if strlen a3 <? 2
        then Create c args = (c', Panics SliceBoundsOutOfRange)
        else exists path,
            Create c args = (c', Returns (Ok {| repoPath := path;
                                                Table.repo := None |}))
      end
    end
  end.
Proof.
  destruct args as [|name rest].
  - reflexivity.
  - unfold Create.
    rewrite (index_nth (name :: rest) 0 name (Z.le_refl 0) eq_refl).
    destruct (DeclareVTab c (schema (Sprintf_q name))) as [c' [e|]];
      [reflexivity|].
    destruct (nth_error (name :: rest) 3) as [a3|] eqn:H3.
    + rewrite (index_nth _ 3 a3 ltac:(lia) H3).
      destruct (strlen a3 <? 2) eqn:Hl.
      * apply Z.ltb_lt in Hl. rewrite (slice_too_short a3 Hl). reflexivity.
      * apply Z.ltb_ge in Hl.
        destruct (slice_long_enough a3 Hl) as [path Hp].
        rewrite Hp. eauto.
    + rewrite (index_short _ 3 H3 ltac:(lia)). reflexivity.
Qed.




(** ** One step of the cursor *)

Lemma int_add_small (i : Z) : 0 <= i < int_max -> int_add i 1 = i + 1.
Proof.
  unfold int_max, int_add, wrap_int. intros Hi.
  rewrite Z.mod_small; lia.
Qed.

Lemma index_ok_bound (vc : statsCursor) :
  index_ok vc -> 0 <= statIndex vc < int_max.
Proof.
  unfold index_ok, int_max. intros [[H0|Hin] Hl].
  - rewrite H0. lia.
  - unfold int_max in Hl. lia.
Qed.

Lemma Next_more_files (vc : statsCursor) :
  index_ok vc ->
  statIndex vc + 1 < len (stats vc) ->
  Next vc = Returns (set_statIndex vc (statIndex vc + 1), None).
Proof.
  intros Hok Hmore. unfold Next.
  rewrite (int_add_small _ (index_ok_bound vc Hok)).
  replace (len (stats vc) >? statIndex vc + 1) with true
    by (symmetry; apply Z.gtb_lt; lia).
  reflexivity.
Qed.

Lemma Next_last_file (vc : statsCursor) (it : object.CommitIter) :
  index_ok vc ->
  len (stats vc) <= statIndex vc + 1 ->
  commitIter vc = Some it ->
  Next vc =
    let (res, it') := object.CommitIter_Next it in
    let vc0 := set_commitIter (set_statIndex vc 0) (Some it') in
    match res with
    | Err e =>
      if error_eqb e io_EOF then Returns (set_current vc0 None, None)
      else Returns (vc0, Some e)
    | Ok commit =>
      match next_stats commit with
      | Panics p => Panics p
      | Returns (Err e) => Returns (vc0, Some e)
      | Returns (Ok st) =>
        Returns (set_current (set_stats vc0 st) (Some commit), None)
      end
    end.
Proof.
  intros Hok Hlast Hit. unfold Next.
  rewrite (int_add_small _ (index_ok_bound vc Hok)).
  replace (len (stats vc) >? statIndex vc + 1) with false.
  2:{ symmetry. rewrite Z.gtb_ltb. apply Z.ltb_ge. lia. }
  simpl commitIter. rewrite Hit. reflexivity.
Qed.

Lemma Next_new_cursor (r : option git.Repository) :
  Next (new_statsCursor r) = Panics NilDereference.
Proof. reflexivity. Qed.


(** C10: when the statistics computed for the next commit are empty,
    [Next] still stops on that commit, [EOF] answers false, and reading
    the file, additions or deletions column indexes the empty slice:
    the call panics. *)
Theorem C10_empty_stats_position (vc : statsCursor) (c : object.Commit)
  (rest : object.CommitIter) :
  index_ok vc ->
  len (stats vc) <= statIndex vc + 1 ->
  commitIter vc = Some (Ok c :: rest) ->
  next_stats c = Returns (Ok []) ->
  exists vc',
    Next vc = Returns (vc', None) /\
    current vc' = Some c /\
    stats vc' = [] /\
    EOF vc' = false /\
    forall col, 1 <= col <= 3 -> Column vc' col = Panics IndexOutOfRange.
Proof.
  intros Hok Hlast Hit Hst.
  rewrite (Next_last_file vc _ Hok Hlast Hit). simpl. rewrite Hst.
  eexists. split; [reflexivity|]. repeat split.
  intros col Hcol. unfold Column. simpl.
  assert (Hc : col = 1 \/ col = 2 \/ col = 3) by lia.
  destruct Hc as [-> | [-> | ->]]; reflexivity.
Qed.

(** ** Re-filtering *)

Lemma Filter_repo (vc vc' : statsCursor) (err : option error)
  (idxNum : Z) (idxStr : string) (vals : list sqlite3.Result) :
  Filter vc idxNum idxStr vals = Returns (vc', err) ->
  Cursor.repo vc' = Cursor.repo vc.
Proof.
  unfold Filter, Filter_on. intros HF.
  destruct (Cursor.repo vc) as [r|] eqn:Hr; [|discriminate].
  destruct (git.Head r) as [h|e].
  - destruct (git.Log r _) as [iter|e].
    + destruct (object.CommitIter_Next iter) as [[c|e] iter'].
      * destruct (object.Stats c); injection HF as <- _; simpl; congruence.
      * injection HF as <- _; simpl; congruence.
    + injection HF as <- _; congruence.
  - destruct (error_eqb e ErrReferenceNotFound); injection HF as <- _;
      congruence.
Qed.

Lemma Next_repo (vc vc' : statsCursor) (err : option error) :
  Next vc = Returns (vc', err) -> Cursor.repo vc' = Cursor.repo vc.
Proof.
  unfold Next. intros HN.
  destruct (len (stats vc) >? int_add (statIndex vc) 1).
  - injection HN as <- _. reflexivity.
  - simpl in HN. destruct (commitIter vc) as [it|]; [|discriminate].
    destruct (object.CommitIter_Next it) as [[c|e] it'].
    + destruct (next_stats c) as [[st|e]|p]; [| |discriminate];
        injection HN as <- _; reflexivity.
    + destruct (error_eqb e io_EOF); injection HN as <- _; reflexivity.
Qed.

Lemma used_repo (r : git.Repository) (vc : statsCursor) :
  used r vc -> Cursor.repo vc = Some r.
Proof.
  induction 1 as [|vc vc' err a b c _ IH HF|vc vc' err _ IH HN].
  - reflexivity.
  - rewrite (Filter_repo _ _ _ _ _ _ HF). exact IH.
  - rewrite (Next_repo _ _ _ HN). exact IH.
Qed.

Lemma Filter_unborn (r : git.Repository) (vc : statsCursor)
  (idxNum : Z) (idxStr : string) (vals : list sqlite3.Result) :
  Cursor.repo vc = Some r ->
  git.Head r = Err ErrReferenceNotFound ->
  Filter vc idxNum idxStr vals = Returns (vc, None).
Proof. intros Hr Hh. unfold Filter, Filter_on. rewrite Hr, Hh. reflexivity. Qed.

(** Over a repository without commits the cursor never leaves the state
    [Open] made: [Filter] changes nothing and [Next] has no walker. *)
Lemma used_unborn (r : git.Repository) (vc : statsCursor) :
  git.Head r = Err ErrReferenceNotFound ->
  used r vc -> vc = new_statsCursor (Some r).
Proof.
  intros Hh. induction 1 as [|vc vc' err a b c Hu IH HF|vc vc' err _ IH HN].
  - reflexivity.
  - rewrite (Filter_unborn r vc a b c (used_repo r vc Hu) Hh) in HF.
    injection HF as <- _. exact IH.
  - subst vc. rewrite Next_new_cursor in HN. discriminate.
Qed.

(** C3: over a repository whose tip does not resolve, [Filter] returns
    no error and leaves the cursor at [EOF]; the scan ends at once with
    no row and no error. *)
Theorem C3_no_commits_empty_scan (r : git.Repository) (vc : statsCursor)
  (idxNum : Z) (idxStr : string) (vals : list sqlite3.Result) :
  git.Head r = Err ErrReferenceNotFound ->
  used r vc ->
  exists vc',
    Filter vc idxNum idxStr vals = Returns (vc', None) /\
    EOF vc' = true /\
    forall fuel cols, scan (S fuel) cols vc = Some ([], Finished).
Proof.
  intros Hh Hu. pose proof (used_unborn r vc Hh Hu) as ->.
  exists (new_statsCursor (Some r)). split; [|split].
  - apply (Filter_unborn r); [reflexivity | exact Hh].
  - reflexivity.
  - intros fuel cols. unfold scan.
    rewrite (Filter_unborn r (new_statsCursor (Some r)) 0 "" [] eq_refl Hh).
    reflexivity.
Qed.

Lemma Filter_unfold (r : git.Repository) (vc : statsCursor)
  (idxNum : Z) (idxStr : string) (vals : list sqlite3.Result) :
  Cursor.repo vc = Some r ->
  Filter vc idxNum idxStr vals = Filter_on r vc.
Proof.
  intros Hr. unfold Filter. rewrite Hr. reflexivity.
Qed.


(** ** The scan over a readable history *)









Lemma commit_id_row_In (h : string) (visits : list object.Commit) :
  In [Some (sqlite3.ResultText h)] (map commit_id_row visits) <->
  In h (map object.Hash visits).
Proof.
  rewrite !in_map_iff. unfold commit_id_row, object.ID.
  split; intros (c & Hc & Hin); exists c; split; congruence.
Qed.

Lemma Filter_first_commit (r : git.Repository) (tip : string)
  (c0 : object.Commit) (rest : object.CommitIter) (st0 : object.FileStats)
  (idxNum : Z) (idxStr : string) (vals : list sqlite3.Result) :
  git.Head r = Ok tip ->
  git.Log r {| git.From := tip; git.Order := git.LogOrderCommitterTime |}
    = Ok (Ok c0 :: rest) ->
  object.Stats c0 = Ok st0 ->
  Filter (new_statsCursor (Some r)) idxNum idxStr vals =
    Returns ({| Cursor.repo := Some r; current := Some c0; stats := st0;
                statIndex := 0; commitIter := Some rest |}, None).
Proof.
  intros Hh Hl Hs. unfold Filter, Filter_on. simpl. rewrite Hh, Hl. simpl.
  rewrite Hs. reflexivity.
Qed.

(** ** The scan ends *)

Lemma Next_no_walker (vc : statsCursor) :
  index_ok vc ->
  len (stats vc) <= statIndex vc + 1 ->
  commitIter vc = None ->
  Next vc = Panics NilDereference.
Proof.
  intros Hok Hlast Hit. unfold Next.
  rewrite (int_add_small _ (index_ok_bound vc Hok)).
  replace (len (stats vc) >? statIndex vc + 1) with false.
  2:{ symmetry. rewrite Z.gtb_ltb. apply Z.ltb_ge. lia. }
  simpl commitIter. rewrite Hit. reflexivity.
Qed.

Lemma root_stats_length (files : object.FileIter) :
  forall acc st,
    root_stats files acc = Returns (Ok st) ->
    (List.length st <= List.length acc + List.length files)%nat.
Proof.
  induction files as [|[x|e] rest IH]; intros acc st Hrs; simpl in Hrs.
  - injection Hrs as <-. lia.
  - destruct (object.Lines x) as [lines|e]; [|discriminate].
    apply IH in Hrs. rewrite length_app in Hrs. simpl in *. lia.
  - destruct (error_eqb e io_EOF); [|discriminate].
    injection Hrs as <-. simpl. lia.
Qed.

Lemma next_stats_length (c : object.Commit) (st : object.FileStats) :
  next_stats c = Returns (Ok st) ->
  (List.length st
   <= outcome_len (object.Stats c) + outcome_len (object.Files c))%nat.
Proof.
  unfold next_stats. destruct (object.NumParents c =? 0).
  - destruct (object.Files c) as [files|e]; [|discriminate].
    intros Hrs. apply root_stats_length in Hrs. simpl in *. lia.
  - intros Hst. injection Hst as ->. simpl. lia.
Qed.

Lemma next_stats_fits (c : object.Commit) (st : object.FileStats) :
  commit_fits (Ok c) ->
  next_stats c = Returns (Ok st) ->
  len st <= int_max.
Proof.
  intros Hfit Hns. destruct (Hfit c eq_refl) as [Hs Hf].
  pose proof (next_stats_length c st Hns) as Hlen.
  unfold next_stats in Hns. destruct (object.NumParents c =? 0).
  - destruct (object.Files c) as [files|e] eqn:HF; [|discriminate].
    specialize (Hf files eq_refl).
    destruct (object.Stats c); unfold len in *; simpl in *.
    + apply root_stats_length in Hns. simpl in Hns. lia.
    + lia.
  - injection Hns as Hns. apply Hs. exact Hns.
Qed.

(** A step of [Next] that returns no error uses up fuel, or ends the
    scan. *)
Lemma Next_progress (vc vc' : statsCursor) :
  cursor_ok vc ->
  Next vc = Returns (vc', None) ->
  (cursor_ok vc' /\ (scan_fuel vc' < scan_fuel vc)%nat) \/ current vc' = None.
Proof.
  intros [Hok Hfits] HN.
  destruct (Z_lt_le_dec (statIndex vc + 1) (len (stats vc))) as [Hmore|Hlast].
  - rewrite (Next_more_files vc Hok Hmore) in HN. injection HN as <-.
    left. destruct Hok as [Hidx Hlen]. repeat split; simpl.
    + right. lia.
    + exact Hlen.
    + exact Hfits.
    + unfold scan_fuel. simpl. lia.
  - destruct (commitIter vc) as [it|] eqn:Hit.
    2:{ rewrite (Next_no_walker vc Hok Hlast Hit) in HN. discriminate. }
    rewrite (Next_last_file vc it Hok Hlast Hit) in HN.
    specialize (Hfits it eq_refl).
    destruct it as [|[c|e] rest]; simpl in HN.
    + injection HN as <-. right. reflexivity.
    + destruct (next_stats c) as [[st|e]|p] eqn:Hns; try discriminate.
      injection HN as <-. left.
      apply Forall_cons_iff in Hfits. destruct Hfits as [Hc Hrest].
      pose proof (next_stats_fits c st Hc Hns) as Hst.
      pose proof (next_stats_length c st Hns) as Hlen.
      repeat split; simpl.
      * left. reflexivity.
      * exact Hst.
      * intros l Hl. injection Hl as <-. exact Hrest.
      * unfold scan_fuel. simpl. rewrite Hit. simpl.
        unfold len. lia.
    + destruct (error_eqb e io_EOF); [|discriminate].
      injection HN as <-. right. reflexivity.
Qed.

Lemma scan_loop_total (cols : list Z) :
  forall (fuel : nat) (vc : statsCursor),
    cursor_ok vc ->
    (scan_fuel vc <= fuel)%nat ->
    exists res, scan_loop fuel cols vc = Some res.
Proof.
  induction fuel as [|fuel IH]; intros vc Hok Hfuel.
  - unfold scan_fuel in Hfuel. lia.
  - simpl. destruct (EOF vc); [eauto|].
    destruct (read_row vc cols) as [r|p]; [|eauto].
    destruct (Next vc) as [[vc' [e|]]|p] eqn:HN; [eauto| |eauto].
    destruct (Next_progress vc vc' Hok HN) as [[Hok' Hlt]|Hnone].
    + destruct (IH vc' Hok' ltac:(lia)) as [[rows e] Hres].
      rewrite Hres. simpl. eauto.
    + destruct fuel as [|fuel]; [unfold scan_fuel in Hfuel; lia|].
      simpl. unfold EOF. rewrite Hnone. simpl. eauto.
Qed.

Lemma scan_loop_more_fuel (cols : list Z) :
  forall (fuel fuel' : nat) (vc : statsCursor) res,
    scan_loop fuel cols vc = Some res ->
    (fuel <= fuel')%nat ->
    scan_loop fuel' cols vc = Some res.
Proof.
  induction fuel as [|fuel IH]; intros fuel' vc res Hres Hle; [discriminate|].
  destruct fuel' as [|fuel']; [lia|].
  simpl in *. destruct (EOF vc); [exact Hres|].
  destruct (read_row vc cols) as [r|p]; [|exact Hres].
  destruct (Next vc) as [[vc' [e|]]|p]; try exact Hres.
  destruct (scan_loop fuel cols vc') as [res'|] eqn:Hin; [|discriminate].
  rewrite (IH fuel' vc' res' Hin ltac:(lia)). exact Hres.
Qed.

(** The scan of a cursor of [r] ends: with enough fuel it has a result. *)
Lemma scan_total (r : git.Repository) (vc : statsCursor) (cols : list Z) :
  repo_fits r ->
  used r vc ->
  exists res fuel0, forall fuel, (fuel0 <= fuel)%nat ->
    scan fuel cols vc = Some res.
Proof.
  intros Hfits Hu. pose proof (used_repo r vc Hu) as Hr. unfold scan.
  rewrite (Filter_unfold r vc 0 "" [] Hr). unfold Filter_on.
  destruct (git.Head r) as [tip|e] eqn:Hh.
  - destruct (git.Log r _) as [iter|e] eqn:Hlog.
    2:{ exists ([], Aborted e), O. reflexivity. }
    apply Hfits in Hlog.
    destruct iter as [|[c|e] rest]; simpl.
    + exists ([], Aborted io_EOF), O. reflexivity.
    + apply Forall_cons_iff in Hlog. destruct Hlog as [Hc Hrest].
      destruct (object.Stats c) as [st|e] eqn:Hst.
      2:{ exists ([], Aborted e), O. reflexivity. }
      set (vc' := set_statIndex _ 0).
      assert (Hok : cursor_ok vc').
      { repeat split; simpl.
        - left. reflexivity.
        - destruct (Hc c eq_refl) as [Hs _]. now apply Hs.
        - intros l Hl. injection Hl as <-. exact Hrest. }
      destruct (scan_loop_total cols (scan_fuel vc') vc' Hok (Nat.le_refl _))
        as [res Hres].
      exists res, (scan_fuel vc'). intros fuel Hfuel.
      now apply (scan_loop_more_fuel cols (scan_fuel vc')).
    + exists ([], Aborted e), O. reflexivity.
  - destruct (error_eqb e ErrReferenceNotFound) eqn:He.
    + destruct e; try discriminate.
      rewrite (used_unborn r vc Hh Hu).
      exists ([], Finished), 1%nat. intros [|fuel] Hf; [lia|]. reflexivity.
    + exists ([], Aborted e), O. reflexivity.
Qed.

(** Every cursor the engine holds is well formed. *)
Lemma Next_cursor_ok (vc vc' : statsCursor) (err : option error) :
  cursor_ok vc -> Next vc = Returns (vc', err) -> cursor_ok vc'.
Proof.
  intros [Hok Hfits] HN.
  destruct (Z_lt_le_dec (statIndex vc + 1) (len (stats vc))) as [Hmore|Hlast].
  - rewrite (Next_more_files vc Hok Hmore) in HN. injection HN as <- _.
    destruct Hok as [Hidx Hlen]. repeat split; simpl;
      [right; lia | exact Hlen | exact Hfits].
  - destruct (commitIter vc) as [it|] eqn:Hit.
    2:{ rewrite (Next_no_walker vc Hok Hlast Hit) in HN. discriminate. }
    rewrite (Next_last_file vc it Hok Hlast Hit) in HN.
    specialize (Hfits it eq_refl). destruct Hok as [_ Hlen].
    assert (Hrest : Forall commit_fits (snd (object.CommitIter_Next it))).
    { destruct it as [|x rest]; simpl; [constructor|].
      now apply Forall_cons_iff in Hfits. }
    destruct it as [|[c|e] rest]; simpl in HN, Hrest.
    + injection HN as <- _. repeat split; simpl;
        [left; reflexivity | exact Hlen |].
      intros l Hl. injection Hl as <-. exact Hrest.
    + apply Forall_cons_iff in Hfits. destruct Hfits as [Hc _].
      destruct (next_stats c) as [[st|e]|p] eqn:Hns; try discriminate;
        injection HN as <- _; repeat split; simpl;
        try (left; reflexivity); try exact Hlen;
        try (intros l Hl; injection Hl as <-; exact Hrest).
      exact (next_stats_fits c st Hc Hns).
    + destruct (error_eqb e io_EOF); injection HN as <- _;
        repeat split; simpl; try (left; reflexivity); try exact Hlen;
        intros l Hl; injection Hl as <-; exact Hrest.
Qed.

Lemma Filter_cursor_ok (r : git.Repository) (vc vc' : statsCursor)
  (err : option error) (idxNum : Z) (idxStr : string)
  (vals : list sqlite3.Result) :
  repo_fits r ->
  Cursor.repo vc = Some r ->
  cursor_ok vc ->
  Filter vc idxNum idxStr vals = Returns (vc', err) ->
  cursor_ok vc'.
Proof.
  intros Hfits Hr [Hok Hit] HF.
  rewrite (Filter_unfold r vc idxNum idxStr vals Hr) in HF.
  unfold Filter_on in HF.
  destruct (git.Head r) as [tip|e].
  - destruct (git.Log r _) as [iter|e] eqn:Hlog.
    2:{ injection HF as <- _. now split. }
    apply Hfits in Hlog.
    assert (Hrest : Forall commit_fits (snd (object.CommitIter_Next iter))).
    { destruct iter as [|x rest]; simpl; [constructor|].
      now apply Forall_cons_iff in Hlog. }
    destruct iter as [|[c|e] rest]; simpl in HF, Hrest.
    + injection HF as <- _. split; [exact Hok|].
      intros l Hl. injection Hl as <-. exact Hrest.
    + apply Forall_cons_iff in Hlog. destruct Hlog as [Hc _].
      destruct (object.Stats c) as [st|e] eqn:Hst; injection HF as <- _.
      * repeat split; simpl; [left; reflexivity | |].
        -- destruct (Hc c eq_refl) as [Hs _]. now apply Hs.
        -- intros l Hl. injection Hl as <-. exact Hrest.
      * split; [exact Hok|].
        intros l Hl. injection Hl as <-. exact Hrest.
    + injection HF as <- _. split; [exact Hok|].
      intros l Hl. injection Hl as <-. exact Hrest.
  - destruct (error_eqb e ErrReferenceNotFound); injection HF as <- _;
      now split.
Qed.

Lemma used_cursor_ok (r : git.Repository) (vc : statsCursor) :
  repo_fits r -> used r vc -> cursor_ok vc.
Proof.
  intros Hfits.
  induction 1 as [|vc vc' err a b c Hu IH HF|vc vc' err _ IH HN].
  - repeat split; simpl; [left; reflexivity | unfold len, int_max; simpl; lia |].
    intros l Hl. discriminate.
  - exact (Filter_cursor_ok r vc vc' err a b c Hfits (used_repo r vc Hu) IH HF).
  - exact (Next_cursor_ok vc vc' err IH HN).
Qed.


(** ** Root commits *)

Lemma root_stats_readable (fs : list (string * list string)) :
  forall acc,
    root_stats (readable_files fs) acc = Returns (Ok (acc ++ root_rows fs)).
Proof.
  induction fs as [|[name lines] fs IH]; intros acc; simpl.
  - rewrite app_nil_r. reflexivity.
  - rewrite IH, <- app_assoc. reflexivity.
Qed.

Lemma index_root_rows (fs : list (string * list string)) (i : nat)
  (name : string) (lines : list string) :
  len (root_rows fs) <= int_max ->
  nth_error fs i = Some (name, lines) ->
  index (root_rows fs) (Z.of_nat i) =
    Returns {| object.Name := name; object.Addition := len lines;
               object.Deletion := 0 |}.
Proof.
  intros _ Hn. apply index_nth; [lia|].
  rewrite Nat2Z.id. unfold root_rows. rewrite nth_error_map, Hn. reflexivity.
Qed.

(** When [Next] moves to a root commit whose files read without
    failure, the commit gets one row per file, with the number of lines
    of the file as additions and 0 as deletions. *)
Lemma Next_root_commit_rows (vc : statsCursor) (c : object.Commit)
  (rest : object.CommitIter) (fs : list (string * list string)) :
  index_ok vc ->
  len (stats vc) <= statIndex vc + 1 ->
  commitIter vc = Some (Ok c :: rest) ->
  object.NumParents c = 0 ->
  object.Files c = Ok (readable_files fs) ->
  len fs <= int_max ->
  exists vc',
    Next vc = Returns (vc', None) /\
    current vc' = Some c /\
    stats vc' = root_rows fs /\
    statIndex vc' = 0 /\
    forall i name lines,
      nth_error fs i = Some (name, lines) ->
      let at_i := set_statIndex vc' (Z.of_nat i) in
      Column at_i 1 = Returns (Some (sqlite3.ResultText name), None) /\
      Column at_i 2 = Returns (Some (sqlite3.ResultInt (len lines)), None) /\
      Column at_i 3 = Returns (Some (sqlite3.ResultInt 0), None).
Proof.
  intros Hok Hlast Hit Hroot Hfiles Hfit.
  assert (Hns : next_stats c = Returns (Ok (root_rows fs))).
  { unfold next_stats. rewrite Hroot, Hfiles. simpl.
    apply (root_stats_readable fs []). }
  rewrite (Next_last_file vc _ Hok Hlast Hit). simpl. rewrite Hns.
  eexists. split; [reflexivity|]. repeat split; unfold Column; simpl;
    rewrite (index_root_rows fs i name lines); try assumption; try reflexivity;
    unfold len, root_rows in *; rewrite length_map; exact Hfit.
Qed.

(** ** The scenarios of the specification, run *)

(** Scenario B, all four columns: [H2] first, then the root commit
    [H1] with the line count of its file. *)
Example scenarioB_scan :
  scan 3 [0; 1; 2; 3] (new_statsCursor (Some scenarioB)) =
    Some ([[Some (sqlite3.ResultText "H2"); Some (sqlite3.ResultText "a.txt");
            Some (sqlite3.ResultInt 3); Some (sqlite3.ResultInt 1)];
           [Some (sqlite3.ResultText "H1"); Some (sqlite3.ResultText "a.txt");
            Some (sqlite3.ResultInt 5); Some (sqlite3.ResultInt 0)]],
          Finished).
Proof. reflexivity. Qed.

(** Scenario A when [Stats()] answers the two rows for [H]. *)
Example scenarioA_scan_when_Stats_answers :
  scan 3 [0; 1; 2; 3] (new_statsCursor (Some (scenarioA (Ok scenarioA_rows)))) =
    Some ([[Some (sqlite3.ResultText "H"); Some (sqlite3.ResultText "a.txt");
            Some (sqlite3.ResultInt 3); Some (sqlite3.ResultInt 0)];
           [Some (sqlite3.ResultText "H"); Some (sqlite3.ResultText "b.txt");
            Some (sqlite3.ResultInt 2); Some (sqlite3.ResultInt 0)]],
          Finished).
Proof. reflexivity. Qed.

(** A commit with empty statistics in the walker: the commit id is
    still read, the other columns crash the scan. *)
Example empty_stats_scan :
  scan_loop 3 [0] (cursor_before commit_same_tree) =
    Some ([[Some (sqlite3.ResultText "H2")]; [Some (sqlite3.ResultText "M")]],
          Finished) /\
  scan_loop 3 [0; 1] (cursor_before commit_same_tree) =
    Some ([[Some (sqlite3.ResultText "H2"); Some (sqlite3.ResultText "a.txt")]],
          Crashed IndexOutOfRange).
Proof. split; reflexivity. Qed.

(** ** The theorems at concrete repositories *)

Lemma scenarioB_reachable (h : string) :
  In h ["H2"; "H1"] <-> reachable scenarioB "H2" h.
Proof.
  split.
  - intros [<-|[<-|[]]].
    + now apply (reach_tip scenarioB "H2" commit_H2).
    + apply (reach_parent scenarioB "H2" "H2" commit_H2 "H1" commit_H1);
        try reflexivity.
      * now apply (reach_tip scenarioB "H2" commit_H2).
      * now left.
  - induction 1 as [c Hc|h c p cp _ IH Hc Hp Hcp].
    + now left.
    + destruct IH as [<-|[<-|[]]]; simpl in Hc; injection Hc as <-;
        simpl in Hp.
      * destruct Hp as [<-|[]]. right. now left.
      * contradiction.
Qed.

Lemma small_fits {A : Type} (l : list A) :
  (List.length l <= 1000)%nat -> len l <= int_max.
Proof. unfold len, int_max. lia. Qed.

Lemma scenarioB_fits : repo_fits scenarioB.
Proof.
  intros opts it Hlog. simpl in Hlog.
  destruct (String.eqb (git.From opts) "H2"); [|discriminate].
  injection Hlog as <-.
  constructor; [|constructor; [|constructor]];
    intros c Hc; injection Hc as <-;
    (split; intros l Hl; [|injection Hl as <-; apply small_fits; simpl; lia]).
  - injection Hl as <-. apply small_fits; simpl; lia.
  - discriminate.
Qed.

Lemma C3_no_commits_empty_scan_witness :
  exists vc',
    Filter (new_statsCursor (Some unborn_repo)) 0 "" [] = Returns (vc', None) /\
    EOF vc' = true /\
    forall fuel cols,
      scan (S fuel) cols (new_statsCursor (Some unborn_repo))
        = Some ([], Finished).
Proof.
  apply (C3_no_commits_empty_scan unborn_repo); [reflexivity|].
  apply used_open.
Defined.


Lemma used_cursor_on_H1 : used scenarioB cursor_on_H1.
Proof.
  apply (used_Next scenarioB cursor_on_H2 cursor_on_H1 None); [|reflexivity].
  apply (used_Filter scenarioB (new_statsCursor (Some scenarioB))
           cursor_on_H2 None 0 "" []); [apply used_open | reflexivity].
Qed.


Lemma C10_empty_stats_position_witness :
  (exists vc',
     Next (cursor_before commit_same_tree) = Returns (vc', None) /\
     current vc' = Some commit_same_tree /\
     stats vc' = [] /\
     EOF vc' = false /\
     forall col, 1 <= col <= 3 -> Column vc' col = Panics IndexOutOfRange) /\
  (exists vc',
     Next (cursor_before commit_no_files) = Returns (vc', None) /\
     current vc' = Some commit_no_files /\
     stats vc' = [] /\
     EOF vc' = false /\
     forall col, 1 <= col <= 3 -> Column vc' col = Panics IndexOutOfRange).
Proof.
  assert (Hok : forall c, index_ok (cursor_before c)).
  { intros c. split; [left; reflexivity | apply small_fits; simpl; lia]. }
  split.
  - exact (C10_empty_stats_position (cursor_before commit_same_tree)
             commit_same_tree [] (Hok _) ltac:(discriminate) eq_refl eq_refl).
  - exact (C10_empty_stats_position (cursor_before commit_no_files)
             commit_no_files [] (Hok _) ltac:(discriminate) eq_refl eq_refl).
Defined.

(** ** More on [Column] and [Next] *)

Lemma Column_in_range (vc : statsCursor) (c : object.Commit)
  (st : object.FileStat) :
  current vc = Some c ->
  index (stats vc) (statIndex vc) = Returns st ->
  read_row vc [0; 1; 2; 3] = Returns (full_row c st).
Proof.
  intros Hc Hi. unfold read_row, Column. simpl. rewrite Hc, Hi. reflexivity.
Qed.

Lemma index_Returns {A : Type} (l : list A) (i : Z) (a : A) :
  index l i = Returns a <->
  0 <= i /\ nth_error l (Z.to_nat i) = Some a.
Proof.
  split.
  - unfold index. destruct (0 <=? i) eqn:H0; simpl; [|discriminate].
    destruct (i <? len l); [|discriminate].
    destruct (nth_error l (Z.to_nat i)) as [b|]; [|discriminate].
    intros Hb. injection Hb as ->. apply Z.leb_le in H0. now split.
  - intros [H0 Hn]. now apply index_nth.
Qed.

(** X1: a row of the four columns can be read exactly when the cursor
    is on a commit and the file index points into the statistics; the
    row is then the commit id with the name, additions and deletions of
    that entry. *)
Theorem read_row_iff_in_range (vc : statsCursor) (r : row) :
  read_row vc [0; 1; 2; 3] = Returns r <->
  exists c st,
    current vc = Some c /\
    0 <= statIndex vc /\
    nth_error (stats vc) (Z.to_nat (statIndex vc)) = Some st /\
    r = full_row c st.
Proof.
  split.
  - unfold read_row, Column. simpl.
    destruct (current vc) as [c|]; [|discriminate].
    destruct (index (stats vc) (statIndex vc)) as [st|p] eqn:Hi;
      [|discriminate].
    intros Hr. injection Hr as <-.
    apply index_Returns in Hi. destruct Hi as [H0 Hn].
    exists c, st. repeat split; assumption.
  - intros (c & st & Hc & H0 & Hn & ->).
    apply Column_in_range; [exact Hc|]. now apply index_Returns.
Qed.

(** X2: when [Next] moves to a root commit whose files read without
    failure, the commit gets exactly one row per file, empty files
    included, each with the number of lines of the file as additions
    and 0 as deletions. *)
Theorem Next_root_one_row_per_file (vc : statsCursor) (c : object.Commit)
  (rest : object.CommitIter) (fs : list (string * list string)) :
  index_ok vc ->
  len (stats vc) <= statIndex vc + 1 ->
  commitIter vc = Some (Ok c :: rest) ->
  object.NumParents c = 0 ->
  object.Files c = Ok (readable_files fs) ->
  exists vc',
    Next vc = Returns (vc', None) /\
    current vc' = Some c /\
    commitIter vc' = Some rest /\
    List.length (stats vc') = List.length fs /\
    forall i name lines,
      nth_error fs i = Some (name, lines) ->
      read_row (set_statIndex vc' (Z.of_nat i)) [0; 1; 2; 3] =
        Returns [Some (sqlite3.ResultText (object.ID c));
                 Some (sqlite3.ResultText name);
                 Some (sqlite3.ResultInt (len lines));
                 Some (sqlite3.ResultInt 0)].
Proof.
  intros Hok Hlast Hit Hroot Hfiles.
  assert (Hns : next_stats c = Returns (Ok (root_rows fs))).
  { unfold next_stats. rewrite Hroot, Hfiles. simpl.
    apply (root_stats_readable fs []). }
  rewrite (Next_last_file vc _ Hok Hlast Hit). simpl. rewrite Hns.
  eexists. split; [reflexivity|].
  split; [reflexivity|]. split; [reflexivity|].
  split; [simpl; unfold root_rows; apply length_map|].
  intros i name lines Hn.
  apply (Column_in_range _ c
           {| object.Name := name; object.Addition := len lines;
              object.Deletion := 0 |}); [reflexivity|].
  simpl. apply index_nth; [lia|].
  rewrite Nat2Z.id. unfold root_rows. rewrite nth_error_map, Hn. reflexivity.
Qed.

(** X3: a [Next] that returns an error (of the walker, of [Stats()],
    of [Files()] or of [Lines()]) leaves the cursor on the commit and
    the statistics it had, with the file index back at 0: no part of
    the next commit is stored. *)
Theorem Next_error_keeps_commit (vc vc' : statsCursor) (e : error) :
  Next vc = Returns (vc', Some e) ->
  current vc' = current vc /\
  stats vc' = stats vc /\
  statIndex vc' = 0 /\
  Cursor.repo vc' = Cursor.repo vc.
Proof.
  unfold Next. intros HN.
  destruct (len (stats vc) >? int_add (statIndex vc) 1); [discriminate|].
  simpl in HN. destruct (commitIter vc) as [it|]; [|discriminate].
  destruct (object.CommitIter_Next it) as [[c|e0] it'].
  - destruct (next_stats c) as [[st|e1]|p]; try discriminate.
    injection HN as <- _. repeat split.
  - destruct (error_eqb e0 io_EOF); [discriminate|].
    injection HN as <- _. repeat split.
Qed.

Lemma Next_times_exhausted (n : nat) :
  forall vc,
    current vc = None ->
    commitIter vc = Some [] ->
    index_ok vc ->
    exists vc',
      Next_times n vc = Returns (vc', None) /\
      current vc' = None /\ commitIter vc' = Some [] /\ index_ok vc' /\
      stats vc' = stats vc.
Proof.
  induction n as [|n IH]; intros vc Hc Hit Hok.
  - exists vc. split; [reflexivity|]. split; [exact Hc|].
    split; [exact Hit|]. split; [exact Hok | reflexivity].
  - simpl.
    destruct (Z_lt_le_dec (statIndex vc + 1) (len (stats vc))) as [Hmore|Hlast].
    + rewrite (Next_more_files vc Hok Hmore).
      destruct (IH (set_statIndex vc (statIndex vc + 1))) as (vc' & H1 & H2);
        try assumption.
      * destruct Hok as [Hidx Hlen]. split; simpl; [right; lia | exact Hlen].
      * exists vc'. split; [exact H1 | exact H2].
    + rewrite (Next_last_file vc [] Hok Hlast Hit). simpl.
      destruct (IH (set_current (set_commitIter (set_statIndex vc 0) (Some []))
                                None)) as (vc' & H1 & H2); try reflexivity.
      * destruct Hok as [_ Hlen]. split; simpl; [left; reflexivity | exact Hlen].
      * exists vc'. split; [exact H1 | exact H2].
Qed.

(** X4: once the walker has answered [io.EOF], the cursor stays
    exhausted: any number of further [Next] calls return no error, do
    not panic and leave [EOF] true. *)
Theorem Next_after_EOF_stays_exhausted (vc vc1 : statsCursor) (n : nat) :
  index_ok vc ->
  len (stats vc) <= statIndex vc + 1 ->
  commitIter vc = Some [] ->
  Next vc = Returns (vc1, None) ->
  EOF vc1 = true /\
  exists vc', Next_times n vc1 = Returns (vc', None) /\ EOF vc' = true.
Proof.
  intros Hok Hlast Hit HN.
  rewrite (Next_last_file vc [] Hok Hlast Hit) in HN. simpl in HN.
  injection HN as <-. split; [reflexivity|].
  destruct (Next_times_exhausted n
              (set_current (set_commitIter (set_statIndex vc 0) (Some [])) None))
    as (vc' & H1 & H2 & _); try reflexivity.
  - destruct Hok as [_ Hlen]. split; simpl; [left; reflexivity | exact Hlen].
  - exists vc'. split; [exact H1|]. unfold EOF. rewrite H2. reflexivity.
Qed.

(** X5: over a repository without commits [Filter] reports an empty
    result, but the cursor has no walker: a [Next] on it does not
    return, it panics on the nil walker. *)
Theorem Next_without_commits_panics (r : git.Repository) (vc : statsCursor) :
  git.Head r = Err ErrReferenceNotFound ->
  used r vc ->
  EOF vc = true /\ Next vc = Panics NilDereference.
Proof.
  intros Hh Hu. rewrite (used_unborn r vc Hh Hu). split; reflexivity.
Qed.

(** ** More on [Filter] *)

(** X6: a [Filter] that returns an error leaves the position of the
    cursor untouched: the current commit, the statistics and the file
    index are those before the call (only the walker may be new). *)
Theorem Filter_error_keeps_position (vc vc' : statsCursor) (e : error)
  (idxNum : Z) (idxStr : string) (vals : list sqlite3.Result) :
  Filter vc idxNum idxStr vals = Returns (vc', Some e) ->
  current vc' = current vc /\
  stats vc' = stats vc /\
  statIndex vc' = statIndex vc /\
  Cursor.repo vc' = Cursor.repo vc.
Proof.
  unfold Filter, Filter_on. intros HF.
  destruct (Cursor.repo vc) as [r|] eqn:Hr; [|discriminate].
  destruct (git.Head r) as [tip|e0].
  - destruct (git.Log r _) as [iter|e1].
    + destruct (object.CommitIter_Next iter) as [[c|e2] iter'].
      * destruct (object.Stats c); [discriminate|].
        injection HF as <- _. repeat split; exact Hr.
      * injection HF as <- _. repeat split; exact Hr.
    + injection HF as <- _. repeat split; exact Hr.
  - destruct (error_eqb e0 ErrReferenceNotFound); [discriminate|].
    injection HF as <- _. repeat split; exact Hr.
Qed.

(** X7: a [Filter] that returns no error either found no tip
    ([ErrReferenceNotFound]) and changed nothing, or left the cursor on
    the first commit of a new walker from the tip, with what [Stats()]
    returns for that commit, the file index 0 and [EOF] false. *)
Theorem Filter_success_cases (r : git.Repository) (vc vc' : statsCursor)
  (idxNum : Z) (idxStr : string) (vals : list sqlite3.Result) :
  Cursor.repo vc = Some r ->
  Filter vc idxNum idxStr vals = Returns (vc', None) ->
  (git.Head r = Err ErrReferenceNotFound /\ vc' = vc) \/
  (exists tip c rest st,
     git.Head r = Ok tip /\
     git.Log r {| git.From := tip; git.Order := git.LogOrderCommitterTime |}
       = Ok (Ok c :: rest) /\
     object.Stats c = Ok st /\
     vc' = {| Cursor.repo := Some r; current := Some c; stats := st;
              statIndex := 0; commitIter := Some rest |} /\
     EOF vc' = false).
Proof.
  intros Hr HF. rewrite (Filter_unfold r vc idxNum idxStr vals Hr) in HF.
  unfold Filter_on in HF.
  destruct (git.Head r) as [tip|e0].
  - right.
    destruct (git.Log r _) as [iter|e1] eqn:Hlog; [|discriminate].
    destruct iter as [|[c|e2] rest]; simpl in HF; try discriminate.
    destruct (object.Stats c) as [st|e3] eqn:Hst; [|discriminate].
    injection HF as <-.
    exists tip, c, rest, st.
    split; [reflexivity|]. split; [exact Hlog|]. split; [exact Hst|].
    split; [|reflexivity].
    unfold set_statIndex, set_current, set_stats, set_commitIter. simpl.
    rewrite Hr. reflexivity.
  - left. destruct e0; simpl in HF; try discriminate.
    injection HF as <-. now split.
Qed.

(** X8: a walker that has no commit to give makes [Filter] fail: the
    [io.EOF] of its first [Next()] is returned as the error of
    [Filter], it is not an empty result. *)
Theorem Filter_empty_walker_fails (r : git.Repository) (vc : statsCursor)
  (tip : string) (idxNum : Z) (idxStr : string) (vals : list sqlite3.Result) :
  Cursor.repo vc = Some r ->
  git.Head r = Ok tip ->
  git.Log r {| git.From := tip; git.Order := git.LogOrderCommitterTime |}
    = Ok [] ->
  Filter vc idxNum idxStr vals
    = Returns (set_commitIter vc (Some []), Some io_EOF).
Proof.
  intros Hr Hh Hlog. rewrite (Filter_unfold r vc idxNum idxStr vals Hr).
  unfold Filter_on. rewrite Hh, Hlog. reflexivity.
Qed.

(** X9: on every cursor the engine can hold over a repository whose
    slices fit an int, not at [EOF] and with statistics that are not
    empty, the file index is in range: the four columns can be read. *)
Theorem used_cursor_row_readable (r : git.Repository) (vc : statsCursor) :
  repo_fits r ->
  used r vc ->
  EOF vc = false ->
  stats vc <> [] ->
  exists c st,
    current vc = Some c /\
    In st (stats vc) /\
    read_row vc [0; 1; 2; 3] = Returns (full_row c st).
Proof.
  intros Hfits Hu Heof Hne.
  destruct (used_cursor_ok r vc Hfits Hu) as [[Hidx Hlen] _].
  unfold EOF in Heof. destruct (current vc) as [c|] eqn:Hc; [|discriminate].
  assert (Hin : 0 <= statIndex vc < len (stats vc)).
  { destruct Hidx as [H0|Hin]; [|exact Hin].
    rewrite H0. unfold len. destruct (stats vc); [congruence|].
    simpl List.length. lia. }
  destruct (nth_error (stats vc) (Z.to_nat (statIndex vc))) as [st|] eqn:Hn.
  - exists c, st. split; [reflexivity|]. split.
    + now apply nth_error_In in Hn.
    + apply Column_in_range; [exact Hc|]. apply index_nth; [lia | exact Hn].
  - apply nth_error_None in Hn. unfold len in Hin. lia.
Qed.

(** ** The scan of the four columns *)

Lemma scan_loop_step (cols : list Z) (vc : statsCursor) (r : row) (fuel : nat) :
  EOF vc = false ->
  read_row vc cols = Returns r ->
  scan_loop (S fuel) cols vc =
    match Next vc with
    | Panics p => Some ([r], Crashed p)
    | Returns (_, Some e) => Some ([r], Aborted e)
    | Returns (vc', None) => push r (scan_loop fuel cols vc')
    end.
Proof. intros Heof Hr. simpl. rewrite Heof, Hr. reflexivity. Qed.

Lemma index_nil_panics {A : Type} (i : Z) :
  index (@nil A) i = Panics IndexOutOfRange.
Proof.
  unfold index, len. simpl.
  destruct (0 <=? i) eqn:H0; [|reflexivity].
  destruct (i <? 0) eqn:H1; [|reflexivity].
  apply Z.leb_le in H0. apply Z.ltb_lt in H1. lia.
Qed.

Lemma scan_loop_no_stats (vc : statsCursor) (c : object.Commit) (fuel : nat) :
  current vc = Some c ->
  stats vc = [] ->
  scan_loop (S fuel) [0; 1; 2; 3] vc = Some ([], Crashed IndexOutOfRange).
Proof.
  intros Hc Hs. simpl. unfold EOF, Column. rewrite Hc, Hs. simpl.
  rewrite index_nil_panics. reflexivity.
Qed.

Lemma skipn_nth_cons {A : Type} (l : list A) :
  forall (i : nat) (a : A),
    nth_error l i = Some a -> skipn i l = a :: skipn (S i) l.
Proof.
  induction l as [|x l IH]; intros [|i] a Hn; simpl in *; try discriminate.
  - now injection Hn as ->.
  - now apply IH.
Qed.

Lemma scan_loop_full_more (it : object.CommitIter) (tail : list row * ending)
  (k : nat) :
  (forall (vc : statsCursor) (c : object.Commit),
     current vc = Some c ->
     commitIter vc = Some it ->
     len (stats vc) <= int_max ->
     0 <= statIndex vc < len (stats vc) ->
     Z.to_nat (len (stats vc) - statIndex vc - 1) = k ->
     exists fuel0, forall fuel, (fuel0 <= fuel)%nat ->
       scan_loop fuel [0; 1; 2; 3] vc = Some (rows_from vc c tail)) ->
  forall (vc : statsCursor) (c : object.Commit),
    current vc = Some c ->
    commitIter vc = Some it ->
    len (stats vc) <= int_max ->
    0 <= statIndex vc < len (stats vc) ->
    Z.to_nat (len (stats vc) - statIndex vc - 1) = S k ->
    exists fuel0, forall fuel, (fuel0 <= fuel)%nat ->
      scan_loop fuel [0; 1; 2; 3] vc = Some (rows_from vc c tail).
Proof.
  intros IHk vc c Hc Hit Hlen Hin Hk.
  assert (Hnext : statIndex vc + 1 < len (stats vc)) by lia.
  assert (Hok : index_ok vc) by (split; [right; exact Hin | exact Hlen]).
  destruct (nth_error (stats vc) (Z.to_nat (statIndex vc))) as [st|] eqn:Hn.
  2:{ apply nth_error_None in Hn. unfold len in Hin. lia. }
  destruct (IHk (set_statIndex vc (statIndex vc + 1)) c Hc Hit Hlen)
    as [f0 Hf0]; simpl; try lia.
  exists (S f0). intros fuel Hfuel. destruct fuel as [|fuel]; [lia|].
  rewrite (scan_loop_step _ vc (full_row c st)).
  - rewrite (Next_more_files vc Hok Hnext), Hf0 by lia.
    unfold rows_from. destruct tail as [rows e]. simpl.
    rewrite (skipn_nth_cons _ _ _ Hn).
    replace (Z.to_nat (statIndex vc + 1)) with (S (Z.to_nat (statIndex vc)))
      by lia.
    reflexivity.
  - unfold EOF. now rewrite Hc.
  - apply Column_in_range; [exact Hc|]. apply index_nth; [lia | exact Hn].
Qed.

(** From the position [statIndex] of a commit with statistics, over a
    walker holding [cs]: the rows left of this commit, then those of
    the commits that follow. *)
Lemma scan_loop_full (cs : list object.Commit) (sts : list object.FileStats) :
  Forall2 readable_next cs sts ->
  forall (k : nat) (vc : statsCursor) (c : object.Commit),
    current vc = Some c ->
    commitIter vc = Some (map Ok cs) ->
    len (stats vc) <= int_max ->
    0 <= statIndex vc < len (stats vc) ->
    Z.to_nat (len (stats vc) - statIndex vc - 1) = k ->
    exists fuel0, forall fuel, (fuel0 <= fuel)%nat ->
      scan_loop fuel [0; 1; 2; 3] vc =
        Some (rows_from vc c (full_rows (combine cs sts))).
Proof.
  intros HF2.
  induction HF2 as [|c1 st1 cs sts [Hst1 Hfit1] HF2 IHcs]; intros k;
    induction k as [|k IHk]; intros vc c Hc Hit Hlen Hin Hk.
  4:{ exact (scan_loop_full_more _ _ k IHk vc c Hc Hit Hlen Hin Hk). }
  2:{ exact (scan_loop_full_more _ _ k IHk vc c Hc Hit Hlen Hin Hk). }
  - (* last row of the last commit *)
    assert (Hok : index_ok vc) by (split; [right; exact Hin | exact Hlen]).
    destruct (nth_error (stats vc) (Z.to_nat (statIndex vc))) as [st|] eqn:Hn.
    2:{ apply nth_error_None in Hn. unfold len in Hin. lia. }
    exists 2%nat. intros fuel Hfuel. destruct fuel as [|[|fuel]]; try lia.
    rewrite (scan_loop_step _ vc (full_row c st)).
    + rewrite (Next_last_file vc [] Hok ltac:(lia) Hit).
      unfold rows_from. simpl.
      rewrite (skipn_nth_cons _ _ _ Hn), skipn_all2 by (unfold len in *; lia).
      reflexivity.
    + unfold EOF. now rewrite Hc.
    + apply Column_in_range; [exact Hc|]. apply index_nth; [lia | exact Hn].
  - (* last row of a commit, another commit follows *)
    assert (Hok : index_ok vc) by (split; [right; exact Hin | exact Hlen]).
    destruct (nth_error (stats vc) (Z.to_nat (statIndex vc))) as [st|] eqn:Hn.
    2:{ apply nth_error_None in Hn. unfold len in Hin. lia. }
    set (vc1 := {| Cursor.repo := Cursor.repo vc; current := Some c1;
                   stats := st1; statIndex := 0;
                   commitIter := Some (map Ok cs) |}).
    assert (Hrow : forall fuel,
              scan_loop (S fuel) [0; 1; 2; 3] vc =
                push (full_row c st) (scan_loop fuel [0; 1; 2; 3] vc1)).
    { intros fuel.
      rewrite (scan_loop_step _ vc (full_row c st)).
      - rewrite (Next_last_file vc (Ok c1 :: map Ok cs) Hok ltac:(lia) Hit).
        simpl. rewrite Hst1. reflexivity.
      - unfold EOF. now rewrite Hc.
      - apply Column_in_range; [exact Hc|]. apply index_nth; [lia | exact Hn]. }
    assert (Hthis : skipn (Z.to_nat (statIndex vc)) (stats vc) = [st]).
    { rewrite (skipn_nth_cons _ _ _ Hn), skipn_all2 by (unfold len in *; lia).
      reflexivity. }
    unfold rows_from. rewrite Hthis. simpl combine.
    destruct (List.length st1) as [|n1] eqn:En1.
    + apply length_zero_iff_nil in En1.
      exists 2%nat. intros fuel Hfuel. destruct fuel as [|[|fuel]]; try lia.
      rewrite Hrow.
      rewrite (scan_loop_no_stats vc1 c1 fuel eq_refl En1).
      rewrite En1. reflexivity.
    + destruct (IHcs (Z.to_nat (len (stats vc1) - 0 - 1)) vc1 c1)
        as [f0 Hf0]; try reflexivity.
      * exact Hfit1.
      * unfold len. simpl. lia.
      * exists (S f0). intros fuel Hfuel. destruct fuel as [|fuel]; [lia|].
        rewrite Hrow, Hf0 by lia. unfold rows_from. simpl.
        destruct st1 as [|s1 st1']; [discriminate|].
        destruct (full_rows (combine cs sts)) as [rows e]. reflexivity.
Qed.

Lemma scan_four_columns (r : git.Repository) (tip : string)
  (c0 : object.Commit) (cs : list object.Commit)
  (st0 : object.FileStats) (sts : list object.FileStats) :
  git.Head r = Ok tip ->
  git.Log r {| git.From := tip; git.Order := git.LogOrderCommitterTime |}
    = Ok (map Ok (c0 :: cs)) ->
  readable_first c0 st0 ->
  Forall2 readable_next cs sts ->
  exists fuel0, forall fuel, (fuel0 <= fuel)%nat ->
    scan fuel [0; 1; 2; 3] (new_statsCursor (Some r))
      = Some (full_rows ((c0, st0) :: combine cs sts)).
Proof.
  intros Hh Hlog [Hst0 Hfit0] HF2.
  set (vc0 := {| Cursor.repo := Some r; current := Some c0; stats := st0;
                 statIndex := 0; commitIter := Some (map Ok cs) |}).
  assert (HF : Filter (new_statsCursor (Some r)) 0 "" [] = Returns (vc0, None))
    by exact (Filter_first_commit r tip c0 (map Ok cs) st0 0 "" [] Hh Hlog Hst0).
  destruct st0 as [|s0 st0'] eqn:Est0.
  - exists 1%nat. intros fuel Hfuel. destruct fuel as [|fuel]; [lia|].
    unfold scan. rewrite HF.
    exact (scan_loop_no_stats vc0 c0 fuel eq_refl eq_refl).
  - destruct (scan_loop_full cs sts HF2
                (Z.to_nat (len (stats vc0) - 0 - 1)) vc0 c0)
      as [f0 Hf0]; try reflexivity.
    + exact Hfit0.
    + unfold len. simpl. lia.
    + exists f0. intros fuel Hfuel. unfold scan. rewrite HF.
      rewrite (Hf0 fuel Hfuel). unfold rows_from. simpl.
      destruct (full_rows (combine cs sts)) as [rows e]. reflexivity.
Qed.

Lemma full_rows_all (groups : list (object.Commit * object.FileStats)) :
  Forall (fun g => snd g <> []) groups ->
  full_rows groups =
    (flat_map (fun g => map (full_row (fst g)) (snd g)) groups, Finished).
Proof.
  induction 1 as [|[c st] more Hne _ IH]; [reflexivity|].
  simpl in *. destruct st as [|s st]; [congruence|].
  rewrite IH. reflexivity.
Qed.

Lemma full_rows_stop (before : list (object.Commit * object.FileStats))
  (c : object.Commit) (after : list (object.Commit * object.FileStats)) :
  Forall (fun g => snd g <> []) before ->
  full_rows (before ++ (c, []) :: after) =
    (flat_map (fun g => map (full_row (fst g)) (snd g)) before,
     Crashed IndexOutOfRange).
Proof.
  induction 1 as [|[c' st] more Hne _ IH]; [reflexivity|].
  simpl in *. destruct st as [|s st]; [congruence|].
  rewrite IH. reflexivity.
Qed.

(** X10: over a history that reads without failure and in which every
    commit has statistics, the scan of the four columns finishes and
    yields, commit after commit in the order of the walker and entry
    after entry in the order of the statistics, the row (commit id,
    file, additions, deletions): the first commit measured by
    [Stats()], the others by the statistics [Next] computes. *)
Theorem scan_yields_every_commit_file_pair (r : git.Repository) (tip : string)
  (c0 : object.Commit) (cs : list object.Commit)
  (st0 : object.FileStats) (sts : list object.FileStats) :
  git.Head r = Ok tip ->
  git.Log r {| git.From := tip; git.Order := git.LogOrderCommitterTime |}
    = Ok (map Ok (c0 :: cs)) ->
  readable_first c0 st0 ->
  Forall2 readable_next cs sts ->
  Forall (fun st => st <> []) (st0 :: sts) ->
  exists fuel0, forall fuel, (fuel0 <= fuel)%nat ->
    scan fuel [0; 1; 2; 3] (new_statsCursor (Some r)) =
      Some (flat_map (fun g => map (full_row (fst g)) (snd g))
                     ((c0, st0) :: combine cs sts),
            Finished).
Proof.
  intros Hh Hlog H0 HF2 Hne.
  destruct (scan_four_columns r tip c0 cs st0 sts Hh Hlog H0 HF2) as [f0 Hf0].
  exists f0. intros fuel Hfuel. rewrite (Hf0 fuel Hfuel).
  rewrite full_rows_all; [reflexivity|].
  apply Forall_cons_iff in Hne. destruct Hne as [Hne0 Hne].
  constructor; [exact Hne0|].
  clear -HF2 Hne. revert Hne.
  induction HF2 as [|c st cs sts _ _ IH]; intros Hne; [constructor|].
  apply Forall_cons_iff in Hne. destruct Hne as [Hst Hne].
  constructor; [exact Hst | now apply IH].
Qed.

(** X11: when a commit of the history has no statistics, the scan of
    the four columns yields the rows of the commits before it and then
    stops in the out-of-range panic of [Column]: the commits after it
    are never reached. *)
Theorem scan_stops_at_commit_without_stats (r : git.Repository) (tip : string)
  (c0 : object.Commit) (cs : list object.Commit)
  (st0 : object.FileStats) (sts : list object.FileStats)
  (before after : list (object.Commit * object.FileStats))
  (c : object.Commit) :
  git.Head r = Ok tip ->
  git.Log r {| git.From := tip; git.Order := git.LogOrderCommitterTime |}
    = Ok (map Ok (c0 :: cs)) ->
  readable_first c0 st0 ->
  Forall2 readable_next cs sts ->
  (c0, st0) :: combine cs sts = before ++ (c, []) :: after ->
  Forall (fun g => snd g <> []) before ->
  exists fuel0, forall fuel, (fuel0 <= fuel)%nat ->
    scan fuel [0; 1; 2; 3] (new_statsCursor (Some r)) =
      Some (flat_map (fun g => map (full_row (fst g)) (snd g)) before,
            Crashed IndexOutOfRange).
Proof.
  intros Hh Hlog H0 HF2 Hsplit Hne.
  destruct (scan_four_columns r tip c0 cs st0 sts Hh Hlog H0 HF2) as [f0 Hf0].
  exists f0. intros fuel Hfuel. rewrite (Hf0 fuel Hfuel), Hsplit.
  rewrite (full_rows_stop before c after Hne). reflexivity.
Qed.

(** X12: the scan of a cursor the engine holds always ends: for every
    choice of columns there is a result (rows and ending) that every
    large enough number of iterations gives. *)
Theorem scan_always_ends (r : git.Repository) (vc : statsCursor)
  (cols : list Z) :
  repo_fits r ->
  used r vc ->
  exists res fuel0, forall fuel, (fuel0 <= fuel)%nat ->
    scan fuel cols vc = Some res.
Proof. intros Hfits Hu. exact (scan_total r vc cols Hfits Hu). Qed.

(** ** [Close], [Disconnect] and [Open] *)

(** X13: [Close] returns no error and leaves the cursor at [EOF]; a
    [Filter] afterwards starts the scan again as on a new cursor,
    whatever [Close()] did to the old walker. *)
Theorem Close_then_scan (iter_Close : object.CommitIter -> object.CommitIter)
  (r : git.Repository) (vc : statsCursor) :
  used r vc ->
  snd (Close iter_Close vc) = None /\
  EOF (fst (Close iter_Close vc)) = true /\
  forall fuel cols,
    scan fuel cols (fst (Close iter_Close vc))
      = scan fuel cols (new_statsCursor (Some r)).
Proof.
  intros Hu. split; [reflexivity|]. split; [reflexivity|].
  intros fuel cols. pose proof (used_repo r vc Hu) as Hr.
  set (vc' := fst (Close iter_Close vc)).
  assert (Hr' : Cursor.repo vc' = Some r).
  { unfold vc', Close. simpl. destruct (commitIter vc); simpl; exact Hr. }
  assert (Hun : git.Head r = Err ErrReferenceNotFound ->
                vc' = new_statsCursor (Some r)).
  { intros Hh. unfold vc'. rewrite (used_unborn r vc Hh Hu). reflexivity. }
  clearbody vc'. destruct vc' as [rp cur st0 i it]. simpl in Hr'. subst rp.
  unfold scan, Filter, Filter_on. simpl.
  destruct (git.Head r) as [tip|e] eqn:Hh.
  - destruct (git.Log r _) as [iter|e]; [|reflexivity].
    destruct (object.CommitIter_Next iter) as [[c|e] iter']; [|reflexivity].
    destruct (object.Stats c) as [st|e]; reflexivity.
  - destruct (error_eqb e ErrReferenceNotFound) eqn:He; [|reflexivity].
    destruct e; try discriminate.
    rewrite (Hun eq_refl). reflexivity.
Qed.

Lemma string_snoc (t : string) :
  t <> EmptyString ->
  exists mid b, t = (mid ++ String b EmptyString)%string.
Proof.
  induction t as [|a t IH]; intros Hne; [congruence|].
  destruct t as [|a' t'].
  - exists EmptyString, a. reflexivity.
  - destruct IH as (mid & b & Ht); [discriminate|].
    exists (String a mid), b. simpl. rewrite <- Ht. reflexivity.
Qed.

Lemma slice_middle (a3 : string) :
  2 <= strlen a3 ->
  exists b1 mid b2,
    a3 = String b1 (mid ++ String b2 EmptyString)%string /\
    string_slice a3 1 (strlen a3 - 1) = Returns mid.
Proof.
  intros Hl. destruct a3 as [|b1 t]; [unfold strlen in Hl; simpl in Hl; lia|].
  destruct (string_snoc t) as (mid & b2 & Ht).
  { intros ->. unfold strlen in Hl. simpl in Hl. lia. }
  exists b1, mid, b2. subst t. split; [reflexivity|].
  exact (slice_strips b1 b2 mid).
Qed.

Section OpenAgain.
Context `{Host}.

(** X14: [Open] does not depend on the repository handle the table
    holds: after [Disconnect], or after an earlier [Open], it gives the
    same result as before, and the table keeps its path; every cursor
    it makes is at [EOF] until [Filter] is called. *)
Theorem Open_after_Disconnect (v : gitStatsTable) :
  snd (Open (fst (Disconnect v))) = snd (Open v) /\
  snd (Open (fst (Open v))) = snd (Open v) /\
  repoPath (fst (Open v)) = repoPath v /\
  repoPath (fst (Disconnect v)) = repoPath v /\
  forall vc, snd (Open v) = Ok vc -> EOF vc = true.
Proof.
  unfold Open, Disconnect. simpl.
  destruct (PlainOpen (repoPath v)) as [r|e] eqn:Hp; simpl; rewrite ?Hp;
    repeat split; try reflexivity; intros vc Hvc; try discriminate.
  injection Hvc as <-. reflexivity.
Qed.

(** X15: [Create] does not look at what the first and the last byte of
    the path argument are: whenever it returns a table, the path
    argument is one byte, the stored path, and one more byte. *)
Theorem Create_drops_first_and_last_byte (c : SQLiteConn)
  (args : list string) (v : gitStatsTable) :
  snd (Create c args) = Returns (Ok v) ->
  exists a3 b1 b2,
    nth_error args 3 = Some a3 /\
    a3 = String b1 (repoPath v ++ String b2 EmptyString)%string /\
    strlen (repoPath v) = strlen a3 - 2.
Proof.
  intros HC. pose proof (Create_cases c args) as Hc.
  destruct args as [|name rest]; [rewrite Hc in HC; discriminate|].
  destruct (DeclareVTab c (schema (Sprintf_q name))) as [c' [e|]];
    [rewrite Hc in HC; discriminate|].
  destruct (nth_error (name :: rest) 3) as [a3|] eqn:H3;
    [|rewrite Hc in HC; discriminate].
  destruct (strlen a3 <? 2) eqn:Hl; [rewrite Hc in HC; discriminate|].
  apply Z.ltb_ge in Hl. clear Hc.
  unfold Create in HC.
  rewrite (index_nth (name :: rest) 0 name (Z.le_refl 0) eq_refl) in HC.
  destruct (DeclareVTab c (schema (Sprintf_q name))) as [c'' [e|]];
    [discriminate|].
  rewrite (index_nth _ 3 a3 ltac:(lia) H3) in HC.
  destruct (slice_middle a3 Hl) as (b1 & mid & b2 & Ha3 & Hs).
  rewrite Hs in HC. simpl in HC. injection HC as <-. simpl.
  exists a3, b1, b2. split; [reflexivity|]. split; [exact Ha3|].
  rewrite Ha3. unfold strlen. simpl String.length.
  rewrite length_append. simpl String.length. lia.
Qed.

(** X16: [Create] declares the table before it reads the path
    argument: with fewer than four arguments and the declaration
    accepted, it panics out of range after the schema named by
    [args[0]] has been declared on the connection. *)
Theorem Create_declares_before_panic (c : SQLiteConn) (args : list string)
  (name : string) :
  nth_error args 0 = Some name ->
  nth_error args 3 = None ->
  snd (DeclareVTab c (schema (Sprintf_q name))) = None ->
  Create c args =
    (fst (DeclareVTab c (schema (Sprintf_q name))), Panics IndexOutOfRange).
Proof.
  intros H0 H3 Hd. unfold Create.
  rewrite (index_nth args 0 name (Z.le_refl 0) H0).
  destruct (DeclareVTab c (schema (Sprintf_q name))) as [c' err].
  simpl in Hd. subst err.
  rewrite (index_short args 3 H3 ltac:(lia)). reflexivity.
Qed.

End OpenAgain.

(** ** The command *)

Section Command.
Variables DB Rows : Type.
Variable w : cmd.World DB Rows.

Lemma bind_inv {A B : Type} (m : cmd.prog A) (f : A -> cmd.prog B)
  (tr : list cmd.event) (r : B + Z) :
  cmd.bind m f = (tr, r) ->
  (exists code, m = (tr, inr code) /\ r = inr code) \/
  (exists tr1 a tr2, m = (tr1, inl a) /\ f a = (tr2, r) /\ tr = tr1 ++ tr2).
Proof.
  unfold cmd.bind. destruct m as [tr1 [a|code]].
  - destruct (f a) as [tr2 r2] eqn:Hf. intros Hb. injection Hb as <- <-.
    right. exists tr1, a, tr2. repeat split. exact Hf.
  - intros Hb. injection Hb as <- <-. left. exists code. now split.
Qed.

Lemma Forall_bind {A B : Type} (P : cmd.event -> Prop) (m : cmd.prog A)
  (f : A -> cmd.prog B) :
  Forall P (fst m) ->
  (forall a, snd m = inl a -> Forall P (fst (f a))) ->
  Forall P (fst (cmd.bind m f)).
Proof.
  unfold cmd.bind. destruct m as [tr1 [a|code]]; simpl; intros H1 H2.
  - specialize (H2 a eq_refl). destruct (f a) as [tr2 r2]. simpl in *.
    apply Forall_app. now split.
  - exact H1.
Qed.

Lemma checked_cases {A : Type} (o : outcome A) :
  match o with
  | Ok a => cmd.checked o = ([], inl a)
  | Err e => cmd.checked o = ([cmd.Println e], inr 1)
  end.
Proof. destruct o; reflexivity. Qed.

Lemma handleError_cases (err : option error) :
  match err with
  | None => cmd.handleError err = ([], inl tt)
  | Some e => cmd.handleError err = ([cmd.Println e], inr 1)
  end.
Proof. destruct err; reflexivity. Qed.

Lemma Forall_checked {A : Type} (P : cmd.event -> Prop) (o : outcome A) :
  (forall e, P (cmd.Println e)) -> Forall P (fst (cmd.checked o)).
Proof. intros HP. destruct o; simpl; repeat constructor. apply HP. Qed.

Lemma Forall_handleError (P : cmd.event -> Prop) (err : option error) :
  (forall e, P (cmd.Println e)) -> Forall P (fst (cmd.handleError err)).
Proof. intros HP. destruct err; simpl; repeat constructor. apply HP. Qed.

Lemma Forall_emit (P : cmd.event -> Prop) (e : cmd.event) :
  P e -> Forall P (fst (cmd.emit e)).
Proof. intros HP. simpl. repeat constructor. exact HP. Qed.

Lemma choose_query_argument (f : cmd.Flags) (q : string) (more : list string)
  (char_device : bool) :
  cmd.choose_query w f (q :: more) char_device = ([], inl q).
Proof.
  unfold cmd.choose_query.
  replace (len (q :: more) >? 0) with true
    by (unfold len; simpl List.length; symmetry; apply Z.gtb_lt; lia).
  reflexivity.
Qed.

Lemma Forall_choose_query (P : cmd.event -> Prop) (f : cmd.Flags)
  (args : list string) (char_device : bool) :
  (forall e, P (cmd.Println e)) ->
  (args = [] -> P cmd.ReadAll /\ P cmd.Help) ->
  Forall P (fst (cmd.choose_query w f args char_device)).
Proof.
  intros HP Hargs. destruct args as [|q more].
  2:{ rewrite choose_query_argument. constructor. }
  destruct (Hargs eq_refl) as [Hread Hhelp].
  unfold cmd.choose_query, cmd.readStdin. simpl.
  destruct char_device; simpl.
  - destruct (cmd.cui f); simpl; [constructor|].
    destruct (String.eqb (cmd.presetQuery f) ""); simpl.
    + destruct (cmd.cmd_Help w); simpl; repeat constructor; auto.
    + destruct (cmd.Queries w (cmd.presetQuery f)); simpl;
        repeat constructor; auto.
  - destruct (cmd.ioutil_ReadAll w); simpl; repeat constructor; auto.
Qed.

Lemma choose_query_value (f : cmd.Flags) (args : list string)
  (char_device : bool) (q : string) :
  snd (cmd.choose_query w f args char_device) = inl q ->
  forall a more, args = a :: more -> q = a.
Proof.
  intros Hq a more ->. rewrite choose_query_argument in Hq.
  simpl in Hq. congruence.
Qed.

Lemma clone_remote_cases (repo : string) :
  match cmd.vcsurl_Parse w repo with
  | Err _ => cmd.clone_remote w repo = ([], inl ("", false))
  | Ok remote =>
    let ssh := match remote with Ok _ => true | Err _ => false end in
    match cmd.ioutil_TempDir w with
    | Err e =>
      cmd.clone_remote w repo = ([cmd.TempDir; cmd.Println e], inr 1)
    | Ok dir =>
      match cmd.git_Clone w repo dir ssh with
      | Some e =>
        cmd.clone_remote w repo =
          ([cmd.TempDir; cmd.Clone repo dir ssh; cmd.Println e], inr 1)
      | None =>
        cmd.clone_remote w repo =
          ([cmd.TempDir; cmd.Clone repo dir ssh], inl (dir, true))
      end
    end
  end.
Proof.
  unfold cmd.clone_remote.
  destruct (cmd.vcsurl_Parse w repo) as [remote|e]; [|reflexivity].
  cbv zeta. destruct (cmd.ioutil_TempDir w) as [dir|e]; [|reflexivity].
  simpl. destruct (cmd.git_Clone w repo dir _); reflexivity.
Qed.

Lemma Forall_clone_remote (P : cmd.event -> Prop) (repo : string) :
  (forall e, P (cmd.Println e)) ->
  P cmd.TempDir ->
  (forall u d s, P (cmd.Clone u d s)) ->
  Forall P (fst (cmd.clone_remote w repo)).
Proof.
  intros HP HT HC. pose proof (clone_remote_cases repo) as Hc.
  destruct (cmd.vcsurl_Parse w repo) as [remote|e]; [|rewrite Hc; constructor].
  cbv zeta in Hc. destruct (cmd.ioutil_TempDir w) as [dir|e].
  - destruct (cmd.git_Clone w repo dir _); rewrite Hc; simpl;
      repeat constructor; auto.
  - rewrite Hc. simpl. repeat constructor; auto.
Qed.

Lemma run_query_cases (f : cmd.Flags) (repo dir query : string) :
  let abs := if String.eqb dir "" then cmd.filepath_Abs w repo
             else cmd.filepath_Abs w dir in
  match abs with
  | Err e =>
    cmd.run_query w f repo dir query = ([cmd.Println e], inr 1)
  | Ok dir' =>
    if cmd.cui f then
      cmd.run_query w f repo dir query
        = ([cmd.RunGUI repo dir' query], inl dir')
    else
      exists tr r,
        cmd.run_query w f repo dir query
          = (cmd.New dir' (cmd.useGitCLI f) :: tr, r) /\
        (r = inl dir' \/ r = inr 1) /\
        (forall e, In e tr ->
           e = cmd.Query query \/ e = cmd.DisplayDB (cmd.format f) \/
           exists err, e = cmd.Println err) /\
        (r = inr 1 -> exists tr' err, tr = tr' ++ [cmd.Println err])
  end.
Proof.
  unfold cmd.run_query. cbv zeta.
  destruct (if String.eqb dir "" then cmd.filepath_Abs w repo
            else cmd.filepath_Abs w dir) as [dir'|e]; [|reflexivity].
  simpl. destruct (cmd.cui f); [reflexivity|]. simpl.
  destruct (cmd.gitqlite_New w dir' (cmd.useGitCLI f)) as [g|e]; simpl.
  - destruct (cmd.DB_Query w g query) as [rows|e]; simpl.
    + destruct (cmd.gitqlite_DisplayDB w rows (cmd.format f)) as [e|]; simpl.
      * eexists _, _. split; [reflexivity|]. split; [now right|]. split.
        -- simpl. intros e0 [<-|[<-|[<-|[]]]]; eauto.
        -- intros _. exists [cmd.Query query; cmd.DisplayDB (cmd.format f)], e.
           reflexivity.
      * eexists _, _. split; [reflexivity|]. split; [now left|]. split.
        -- simpl. intros e0 [<-|[<-|[]]]; eauto.
        -- discriminate.
    + eexists _, _. split; [reflexivity|]. split; [now right|]. split.
      * simpl. intros e0 [<-|[<-|[]]]; eauto.
      * intros _. exists [cmd.Query query], e. reflexivity.
  - eexists _, _. split; [reflexivity|]. split; [now right|]. split.
    + simpl. intros e0 [<-|[]]; eauto.
    + intros _. exists [], e. reflexivity.
Qed.

Lemma Forall_run_query (P : cmd.event -> Prop) (f : cmd.Flags)
  (repo dir query : string) :
  (forall e, P (cmd.Println e)) ->
  (cmd.cui f = true -> forall d, P (cmd.RunGUI repo d query)) ->
  (cmd.cui f = false ->
   (forall d, P (cmd.New d (cmd.useGitCLI f))) /\
   P (cmd.Query query) /\ P (cmd.DisplayDB (cmd.format f))) ->
  Forall P (fst (cmd.run_query w f repo dir query)).
Proof.
  intros HP Hgui Hdb. pose proof (run_query_cases f repo dir query) as Hc.
  cbv zeta in Hc.
  destruct (if String.eqb dir "" then cmd.filepath_Abs w repo
            else cmd.filepath_Abs w dir) as [dir'|e].
  - destruct (cmd.cui f).
    + rewrite Hc. simpl. repeat constructor. now apply Hgui.
    + destruct Hc as (tr & r & -> & _ & Hin & _). simpl.
      destruct (Hdb eq_refl) as (Hnew & Hq & Hd).
      constructor; [apply Hnew|]. apply Forall_forall. intros e He.
      destruct (Hin e He) as [->|[->|[err ->]]]; auto.
  - rewrite Hc. simpl. repeat constructor. apply HP.
Qed.

Lemma Forall_deferred (P : cmd.event -> Prop) (cloned : bool) (dir : string) :
  (forall e, P (cmd.Println e)) ->
  (forall d, P (cmd.RemoveAll d)) ->
  Forall P (fst (cmd.deferred w cloned dir)).
Proof.
  intros HP HR. unfold cmd.deferred. destruct cloned; [|constructor].
  simpl. destruct (cmd.os_RemoveAll w dir); simpl; repeat constructor; auto.
Qed.

(** Every event of a run, by the kind of event. *)
Lemma Run_events (P : cmd.event -> Prop) (f : cmd.Flags) (args : list string) :
  (forall e, P (cmd.Println e)) ->
  P cmd.TempDir ->
  (forall u d s, P (cmd.Clone u d s)) ->
  (forall d, P (cmd.RemoveAll d)) ->
  (args = [] -> P cmd.ReadAll /\ P cmd.Help) ->
  (forall r d q, cmd.cui f = true ->
     (forall a more, args = a :: more -> q = a) -> P (cmd.RunGUI r d q)) ->
  (forall q, cmd.cui f = false ->
     (forall a more, args = a :: more -> q = a) ->
     (forall d, P (cmd.New d (cmd.useGitCLI f))) /\
     P (cmd.Query q) /\ P (cmd.DisplayDB (cmd.format f))) ->
  Forall P (fst (cmd.Run w f args)).
Proof.
  intros HP HT HC HR Hargs Hgui Hdb.
  assert (Hrun : Forall P (fst (cmd.Run_prog w f args))).
  { unfold cmd.Run_prog.
    apply Forall_bind; [now apply Forall_checked|]. intros cwd _.
    apply Forall_bind; [now apply Forall_checked|]. intros char_device _.
    apply Forall_bind; [now apply Forall_choose_query|]. intros query Hq.
    pose proof (choose_query_value f args char_device query Hq) as Hqa.
    apply Forall_bind; [now apply Forall_clone_remote|]. intros dc _.
    apply Forall_bind; [|intros dir _; now apply Forall_deferred].
    apply Forall_run_query; [exact HP | |].
    - intros Hc d. now apply Hgui.
    - intros Hc. now apply Hdb. }
  unfold cmd.Run. destruct (cmd.Run_prog w f args) as [tr [u|code]];
    exact Hrun.
Qed.

(** X17: a query given as first argument is the query of the run:
    standard input is not read, the help is not printed, and the
    terminal UI or the database receives that argument, whatever the
    flags and the state of standard input are. *)
Theorem Run_query_argument_wins (f : cmd.Flags) (q : string)
  (more : list string) :
  let tr := fst (cmd.Run w f (q :: more)) in
  ~ In cmd.ReadAll tr /\
  ~ In cmd.Help tr /\
  (forall r d q', In (cmd.RunGUI r d q') tr -> q' = q) /\
  (forall q', In (cmd.Query q') tr -> q' = q).
Proof.
  cbv zeta.
  set (P := fun e : cmd.event =>
              e <> cmd.ReadAll /\ e <> cmd.Help /\
              (forall r d q', e = cmd.RunGUI r d q' -> q' = q) /\
              (forall q', e = cmd.Query q' -> q' = q)).
  assert (HF : Forall P (fst (cmd.Run w f (q :: more)))).
  { apply Run_events; unfold P.
    - intros e. repeat split; intros; discriminate.
    - repeat split; intros; discriminate.
    - intros u d s. repeat split; intros; discriminate.
    - intros d. repeat split; intros; discriminate.
    - discriminate.
    - intros r d q0 _ Hq0. rewrite (Hq0 q more eq_refl).
      repeat split; intros; try discriminate. congruence.
    - intros q0 _ Hq0. rewrite (Hq0 q more eq_refl).
      repeat split; intros; try discriminate. congruence. }
  rewrite Forall_forall in HF. unfold P in HF.
  repeat split.
  - intros Hin. destruct (HF _ Hin) as (Hne & _). congruence.
  - intros Hin. destruct (HF _ Hin) as (_ & Hne & _). congruence.
  - intros r d q' Hin. destruct (HF _ Hin) as (_ & _ & Hg & _).
    now apply (Hg r d q').
  - intros q' Hin. destruct (HF _ Hin) as (_ & _ & _ & Hq).
    now apply Hq.
Qed.

(** X18: outside interactive mode the run never starts the terminal
    UI: [tui.RunGUI] is called only under the [cui] flag. *)
Theorem Run_starts_UI_only_when_interactive (f : cmd.Flags)
  (args : list string) :
  cmd.cui f = false ->
  forall e, In e (fst (cmd.Run w f args)) ->
  forall r d q, e <> cmd.RunGUI r d q.
Proof.
  intros Hcui.
  apply (proj1 (Forall_forall
                  (fun e => forall r d q, e <> cmd.RunGUI r d q) _)).
  apply Run_events;
    try (intros; repeat split; intros; discriminate).
  intros r d q Ht. congruence.
Qed.

Lemma exit_shape_app (pre tr : list cmd.event) (code : Z) :
  exit_shape tr code -> exit_shape (pre ++ tr) code.
Proof.
  intros [[Hc (tr' & e & ->)]|[Hc (tr' & ->)]]; [left|right];
    (split; [exact Hc|]).
  - exists (pre ++ tr'), e. now rewrite app_assoc.
  - exists (pre ++ tr'). now rewrite app_assoc.
Qed.

Lemma checked_exit {A : Type} (o : outcome A) (tr : list cmd.event) (code : Z) :
  cmd.checked o = (tr, inr code) -> exit_shape tr code.
Proof.
  destruct o as [a|e]; simpl; intros Hc; [discriminate|].
  injection Hc as Htr Hcode; subst tr code. left. split; [reflexivity|]. now exists [], e.
Qed.

Lemma choose_query_exit (f : cmd.Flags) (args : list string)
  (char_device : bool) (tr : list cmd.event) (code : Z) :
  cmd.choose_query w f args char_device = (tr, inr code) ->
  exit_shape tr code.
Proof.
  destruct args as [|q more].
  2:{ rewrite choose_query_argument. discriminate. }
  unfold cmd.choose_query, cmd.readStdin. simpl.
  destruct char_device; simpl.
  - destruct (cmd.cui f); simpl; [discriminate|].
    destruct (String.eqb (cmd.presetQuery f) ""); simpl.
    + destruct (cmd.cmd_Help w); simpl; intros Hc; injection Hc as Htr Hcode; subst tr code.
      * left. split; [reflexivity|]. now exists [cmd.Help], e.
      * right. split; [reflexivity|]. now exists [].
    + destruct (cmd.Queries w (cmd.presetQuery f)); simpl; [discriminate|].
      intros Hc; injection Hc as Htr Hcode; subst tr code.
      left. split; [reflexivity|]. eexists [], _. reflexivity.
  - destruct (cmd.ioutil_ReadAll w); simpl; [discriminate|].
    intros Hc; injection Hc as Htr Hcode; subst tr code.
    left. split; [reflexivity|]. now exists [cmd.ReadAll], e.
Qed.

Lemma clone_remote_exit (repo : string) (tr : list cmd.event) (code : Z) :
  cmd.clone_remote w repo = (tr, inr code) -> exit_shape tr code.
Proof.
  pose proof (clone_remote_cases repo) as Hc.
  destruct (cmd.vcsurl_Parse w repo) as [remote|e];
    [|rewrite Hc; discriminate].
  cbv zeta in Hc. destruct (cmd.ioutil_TempDir w) as [dir|e].
  - destruct (cmd.git_Clone w repo dir _) as [e|]; rewrite Hc;
      [|discriminate].
    intros H; injection H as Htr Hcode; subst tr code. left. split; [reflexivity|].
    eexists [_; _], e. reflexivity.
  - rewrite Hc. intros H; injection H as Htr Hcode; subst tr code. left.
    split; [reflexivity|]. now exists [cmd.TempDir], e.
Qed.

Lemma run_query_exit (f : cmd.Flags) (repo dir query : string)
  (tr : list cmd.event) (code : Z) :
  cmd.run_query w f repo dir query = (tr, inr code) -> exit_shape tr code.
Proof.
  pose proof (run_query_cases f repo dir query) as Hc. cbv zeta in Hc.
  destruct (if String.eqb dir "" then cmd.filepath_Abs w repo
            else cmd.filepath_Abs w dir) as [dir'|e].
  - destruct (cmd.cui f); [rewrite Hc; discriminate|].
    destruct Hc as (tr0 & r & -> & Hr & _ & Hend).
    intros H. injection H as <- ->.
    destruct Hr as [Hr|Hr]; [discriminate|].
    injection Hr as ->. destruct (Hend eq_refl) as (tr' & err & ->).
    left. split; [reflexivity|].
    exists (cmd.New dir' (cmd.useGitCLI f) :: tr'), err. reflexivity.
  - rewrite Hc. intros H; injection H as Htr Hcode; subst tr code. left.
    split; [reflexivity|]. now exists [], e.
Qed.

Lemma run_query_dir (f : cmd.Flags) (repo dir query dir' : string)
  (tr : list cmd.event) :
  cmd.run_query w f repo dir query = (tr, inl dir') ->
  (if String.eqb dir "" then cmd.filepath_Abs w repo
   else cmd.filepath_Abs w dir) = Ok dir'.
Proof.
  pose proof (run_query_cases f repo dir query) as Hc. cbv zeta in Hc.
  destruct (if String.eqb dir "" then cmd.filepath_Abs w repo
            else cmd.filepath_Abs w dir) as [d|e].
  - destruct (cmd.cui f).
    + rewrite Hc. intros H. injection H as _ <-. reflexivity.
    + destruct Hc as (tr0 & r & -> & Hr & _).
      intros H. injection H as _ ->.
      destruct Hr as [Hr|Hr]; [|discriminate]. injection Hr as <-.
      reflexivity.
  - rewrite Hc. discriminate.
Qed.

Lemma phase_not_RemoveAll :
  (forall e, not_RemoveAll (cmd.Println e)) /\
  not_RemoveAll cmd.TempDir /\ not_RemoveAll cmd.ReadAll /\
  not_RemoveAll cmd.Help /\
  (forall u d s, not_RemoveAll (cmd.Clone u d s)) /\
  (forall r d q, not_RemoveAll (cmd.RunGUI r d q)) /\
  (forall d g, not_RemoveAll (cmd.New d g)) /\
  (forall q, not_RemoveAll (cmd.Query q)) /\
  (forall fm, not_RemoveAll (cmd.DisplayDB fm)).
Proof. unfold not_RemoveAll. repeat split; intros; discriminate. Qed.

(** A run, phase by phase: it exits before its end, with no
    [RemoveAll] called, or it reaches its [return] and the deferred
    function runs. *)
Lemma Run_prog_inv (f : cmd.Flags) (args : list string)
  (tr : list cmd.event) (r : unit + Z) :
  cmd.Run_prog w f args = (tr, r) ->
  (exists code, r = inr code /\ Forall not_RemoveAll tr /\ exit_shape tr code) \/
  (exists cwd query trD dc trE dir pre trF,
     cmd.os_Getwd w = Ok cwd /\
     cmd.clone_remote w (cmd.choose_repo f args cwd) = (trD, inl dc) /\
     cmd.run_query w f (cmd.choose_repo f args cwd) (fst dc) query
       = (trE, inl dir) /\
     cmd.deferred w (snd dc) dir = (trF, r) /\
     Forall not_RemoveAll pre /\
     incl trD pre /\
     tr = pre ++ trF).
Proof.
  destruct phase_not_RemoveAll as (HP & HT & HR & HH & HC & HG & HN & HQ & HD).
  unfold cmd.Run_prog. intros HRun.
  apply bind_inv in HRun.
  destruct HRun as [(code & HA & ->)|(trA & cwd & tr1 & HA & HRun & ->)].
  { left. exists code. split; [reflexivity|]. split.
    - change tr with (fst (tr, @inr string Z code)). rewrite <- HA.
      now apply Forall_checked.
    - now apply (checked_exit _ _ _ HA). }
  assert (HcA := checked_cases (cmd.os_Getwd w)).
  destruct (cmd.os_Getwd w) as [cwd'|e] eqn:Hwd;
    rewrite HcA in HA; [|discriminate].
  injection HA as <- <-. simpl.
  apply bind_inv in HRun.
  destruct HRun as [(code & HB & ->)|(trB & cd & tr2 & HB & HRun & ->)].
  { left. exists code. split; [reflexivity|]. split.
    - change tr1 with (fst (tr1, @inr bool Z code)). rewrite <- HB.
      now apply Forall_checked.
    - now apply (checked_exit _ _ _ HB). }
  assert (HFB : Forall not_RemoveAll trB).
  { change trB with (fst (trB, @inl bool Z cd)). rewrite <- HB.
    now apply Forall_checked. }
  apply bind_inv in HRun.
  destruct HRun as [(code & HC' & ->)|(trC & query & tr3 & HC' & HRun & ->)].
  { left. exists code. split; [reflexivity|]. split.
    - apply Forall_app. split; [exact HFB|].
      change tr2 with (fst (tr2, @inr string Z code)). rewrite <- HC'.
      apply Forall_choose_query; [exact HP | now split].
    - apply exit_shape_app. now apply (choose_query_exit _ _ _ _ _ HC'). }
  assert (HFC : Forall not_RemoveAll trC).
  { change trC with (fst (trC, @inl string Z query)). rewrite <- HC'.
    apply Forall_choose_query; [exact HP | now split]. }
  apply bind_inv in HRun.
  destruct HRun as [(code & HD' & ->)|(trD & dc & tr4 & HD' & HRun & ->)].
  { left. exists code. split; [reflexivity|]. split.
    - apply Forall_app. split; [exact HFB|].
      apply Forall_app. split; [exact HFC|].
      change tr3 with (fst (tr3, @inr (string * bool) Z code)).
      rewrite <- HD'. now apply Forall_clone_remote.
    - do 2 apply exit_shape_app. now apply (clone_remote_exit _ _ _ HD'). }
  assert (HFD : Forall not_RemoveAll trD).
  { change trD with (fst (trD, @inl (string * bool) Z dc)). rewrite <- HD'.
    now apply Forall_clone_remote. }
  assert (HFE : forall dir0 q0,
            Forall not_RemoveAll
              (fst (cmd.run_query w f (cmd.choose_repo f args cwd') dir0 q0))).
  { intros dir0 q0. apply Forall_run_query; [exact HP | |].
    - intros _ d. apply HG.
    - intros _. repeat split; [intros d; apply HN | apply HQ | apply HD]. }
  apply bind_inv in HRun.
  destruct HRun as [(code & HE & ->)|(trE & dir & trF & HE & HRun & ->)].
  { left. exists code. split; [reflexivity|]. split.
    - apply Forall_app. split; [exact HFB|].
      apply Forall_app. split; [exact HFC|].
      apply Forall_app. split; [exact HFD|].
      change tr4 with (fst (tr4, @inr string Z code)). rewrite <- HE.
      apply HFE.
    - do 3 apply exit_shape_app. now apply (run_query_exit _ _ _ _ _ _ HE). }
  right. exists cwd', query, trD, dc, trE, dir, (trB ++ trC ++ trD ++ trE), trF.
  split; [reflexivity|]. split; [exact HD'|]. split; [exact HE|].
  split; [exact HRun|]. split; [|split].
  - apply Forall_app. split; [exact HFB|].
    apply Forall_app. split; [exact HFC|].
    apply Forall_app. split; [exact HFD|].
    change trE with (fst (trE, @inl string Z dir)). rewrite <- HE. apply HFE.
  - intros e He. apply in_or_app. right. apply in_or_app. right.
    apply in_or_app. now left.
  - now rewrite <- !app_assoc.
Qed.

Lemma deferred_cases (cloned : bool) (dir : string) :
  match cloned, cmd.os_RemoveAll w dir with
  | false, _ => cmd.deferred w cloned dir = ([], inl tt)
  | true, None => cmd.deferred w cloned dir = ([cmd.RemoveAll dir], inl tt)
  | true, Some e =>
    cmd.deferred w cloned dir = ([cmd.RemoveAll dir; cmd.Println e], inr 1)
  end.
Proof.
  unfold cmd.deferred. destruct cloned; [|reflexivity].
  simpl. destruct (cmd.os_RemoveAll w dir); reflexivity.
Qed.

Lemma Run_of_prog (f : cmd.Flags) (args : list string)
  (tr : list cmd.event) (fin : cmd.finish) :
  cmd.Run w f args = (tr, fin) ->
  exists r,
    cmd.Run_prog w f args = (tr, r) /\
    match r with
    | inl _ => fin = cmd.Return
    | inr code => fin = cmd.Exit code
    end.
Proof.
  unfold cmd.Run. destruct (cmd.Run_prog w f args) as [tr0 [u|code]];
    intros H; injection H as <- <-; eexists; split; reflexivity.
Qed.

(** X19: the run removes a directory only as its very last call
    (followed at most by the printing of the error of that removal),
    only after a clone that succeeded, and the directory it removes is
    the absolute path of the temporary directory it cloned into. *)
Theorem RemoveAll_is_the_last_call (f : cmd.Flags) (args : list string)
  (tr : list cmd.event) (fin : cmd.finish) (d : string) :
  cmd.Run w f args = (tr, fin) ->
  In (cmd.RemoveAll d) tr ->
  (exists cwd t ssh,
     cmd.os_Getwd w = Ok cwd /\
     cmd.ioutil_TempDir w = Ok t /\
     In (cmd.Clone (cmd.choose_repo f args cwd) t ssh) tr /\
     cmd.git_Clone w (cmd.choose_repo f args cwd) t ssh = None /\
     (if String.eqb t "" then cmd.filepath_Abs w (cmd.choose_repo f args cwd)
      else cmd.filepath_Abs w t) = Ok d) /\
  exists pre,
    Forall not_RemoveAll pre /\
    ((fin = cmd.Return /\ cmd.os_RemoveAll w d = None /\
      tr = pre ++ [cmd.RemoveAll d]) \/
     (exists e, fin = cmd.Exit 1 /\ cmd.os_RemoveAll w d = Some e /\
                tr = pre ++ [cmd.RemoveAll d; cmd.Println e])).
Proof.
  intros HRun Hin. apply Run_of_prog in HRun. destruct HRun as (r & HRun & Hfin).
  apply Run_prog_inv in HRun.
  destruct HRun as [(code & -> & Hno & _)|
    (cwd & query & trD & dc & trE & dir & pre & trF &
     Hwd & Hclone & Hquery & Hdef & Hpre & Hincl & ->)].
  { rewrite Forall_forall in Hno. exfalso. exact (Hno _ Hin d eq_refl). }
  assert (HinF : In (cmd.RemoveAll d) trF).
  { apply in_app_or in Hin. destruct Hin as [Hin|Hin]; [|exact Hin].
    rewrite Forall_forall in Hpre. exfalso. exact (Hpre _ Hin d eq_refl). }
  destruct dc as [t cloned]. simpl in *.
  pose proof (deferred_cases cloned dir) as Hd.
  destruct cloned.
  2:{ rewrite Hd in Hdef. injection Hdef as <- _. contradiction. }
  assert (Hdir : dir = d).
  { destruct (cmd.os_RemoveAll w dir); rewrite Hd in Hdef;
      injection Hdef as <- _; simpl in HinF;
      destruct HinF as [H|H]; try (injection H as ->; reflexivity).
    - destruct H as [H|[]]. discriminate.
    - contradiction. }
  subst dir.
  pose proof (clone_remote_cases (cmd.choose_repo f args cwd)) as Hc.
  destruct (cmd.vcsurl_Parse w (cmd.choose_repo f args cwd)) as [remote|e0].
  2:{ rewrite Hc in Hclone. discriminate. }
  cbv zeta in Hc. destruct (cmd.ioutil_TempDir w) as [t'|e1] eqn:Htmp.
  2:{ rewrite Hc in Hclone. discriminate. }
  destruct (cmd.git_Clone w (cmd.choose_repo f args cwd) t' _) as [e2|] eqn:Hcl.
  { rewrite Hc in Hclone. discriminate. }
  rewrite Hc in Hclone. injection Hclone as HtrD Ht. subst trD. subst t'.
  split.
  - exists cwd, t, (match remote with Ok _ => true | Err _ => false end).
    split; [exact Hwd|]. split; [reflexivity|]. split; [|split].
    + apply in_or_app. left. apply Hincl. right. now left.
    + exact Hcl.
    + exact (run_query_dir _ _ _ _ _ _ Hquery).
  - exists pre. split; [exact Hpre|].
    destruct (cmd.os_RemoveAll w d) as [e|]; rewrite Hd in Hdef;
      injection Hdef as <- <-.
    + right. exists e. subst fin. repeat split.
    + left. subst fin. repeat split.
Qed.

(** X20: when the removal itself cannot fail, a run that ends in
    [os.Exit] has not removed anything: a failure after the clone (of
    [Abs], [New], [Query] or [DisplayDB]) leaves the temporary clone
    on disk, the deferred removal is skipped. *)
Theorem Exit_skips_the_removal (f : cmd.Flags) (args : list string)
  (tr : list cmd.event) (code : Z) :
  (forall d, cmd.os_RemoveAll w d = None) ->
  cmd.Run w f args = (tr, cmd.Exit code) ->
  forall d, ~ In (cmd.RemoveAll d) tr.
Proof.
  intros Hrm HRun d Hin. apply Run_of_prog in HRun.
  destruct HRun as (r & HRun & Hfin).
  destruct r as [u|code']; [discriminate|].
  apply Run_prog_inv in HRun.
  destruct HRun as [(code0 & _ & Hno & _)|
    (cwd & query & trD & dc & trE & dir & pre & trF &
     _ & _ & _ & Hdef & _)].
  - rewrite Forall_forall in Hno. exact (Hno _ Hin d eq_refl).
  - pose proof (deferred_cases (snd dc) dir) as Hd.
    rewrite (Hrm dir) in Hd. destruct (snd dc); rewrite Hd in Hdef;
      discriminate.
Qed.

(** X22: without a query argument, with a terminal as standard input
    and outside interactive mode, a preset name that [tui.Queries]
    does not hold ends the run at once: the error naming the preset is
    printed and the exit code is 1; nothing is cloned or opened. *)
Theorem Unknown_preset_exits (f : cmd.Flags) (cwd : string) :
  cmd.os_Getwd w = Ok cwd ->
  cmd.Stdin_Stat w = Ok true ->
  cmd.cui f = false ->
  cmd.presetQuery f <> "" ->
  cmd.Queries w (cmd.presetQuery f) = None ->
  cmd.Run w f [] =
    ([cmd.Println
        (ErrOther ("Unknown Preset Query: " ++ cmd.presetQuery f)%string)],
     cmd.Exit 1).
Proof.
  intros Hwd Hstat Hcui Hpre Hq.
  apply String.eqb_neq in Hpre.
  unfold cmd.Run, cmd.Run_prog, cmd.choose_query.
  rewrite Hwd, Hstat. simpl. rewrite Hcui, Hpre, Hq. reflexivity.
Qed.

(** X23: without a query argument, a preset or interactive mode, and
    with a terminal as standard input, the run prints the help and
    exits with code 0, or with code 1 after printing the error of the
    help. *)
Theorem No_query_prints_help (f : cmd.Flags) (cwd : string) :
  cmd.os_Getwd w = Ok cwd ->
  cmd.Stdin_Stat w = Ok true ->
  cmd.cui f = false ->
  cmd.presetQuery f = "" ->
  cmd.Run w f [] =
    match cmd.cmd_Help w with
    | None => ([cmd.Help], cmd.Exit 0)
    | Some e => ([cmd.Help; cmd.Println e], cmd.Exit 1)
    end.
Proof.
  intros Hwd Hstat Hcui Hpre.
  unfold cmd.Run, cmd.Run_prog, cmd.choose_query.
  rewrite Hwd, Hstat. simpl. rewrite Hcui, Hpre. simpl.
  destruct (cmd.cmd_Help w); reflexivity.
Qed.

(** X24: the repository given as second argument is read only when
    the [repo] flag is the empty string: with any other value of the
    flag, the arguments after the query change nothing in the run. *)
Theorem Positional_repo_ignored (f : cmd.Flags) (q : string)
  (more more' : list string) :
  cmd.repo f <> "" ->
  cmd.Run w f (q :: more) = cmd.Run w f (q :: more').
Proof.
  intros Hrepo. apply String.eqb_neq in Hrepo.
  assert (Hprog : cmd.Run_prog w f (q :: more) = cmd.Run_prog w f (q :: more')).
  { unfold cmd.Run_prog.
    destruct (cmd.checked (cmd.os_Getwd w)) as [trA [cwd|c]];
      [|reflexivity].
    unfold cmd.bind at 1 6.
    destruct (cmd.checked (cmd.Stdin_Stat w)) as [trB [cd|c]];
      [|reflexivity].
    unfold cmd.bind at 1 5.
    rewrite !choose_query_argument.
    unfold cmd.choose_repo. rewrite Hrepo. reflexivity. }
  unfold cmd.Run. rewrite Hprog. reflexivity.
Qed.

End Command.

(** ** The further theorems at concrete inputs *)

Lemma index_ok_cursor_with_walker (it : object.CommitIter) :
  index_ok (cursor_with_walker it).
Proof. split; [left; reflexivity | apply small_fits; simpl; lia]. Qed.

Lemma Next_root_one_row_per_file_witness :
  exists vc',
    Next (cursor_with_walker [Ok commit_H1]) = Returns (vc', None) /\
    current vc' = Some commit_H1 /\
    commitIter vc' = Some [] /\
    List.length (stats vc') = 1%nat /\
    forall i name lines,
      nth_error [("a.txt", text 5)] i = Some (name, lines) ->
      read_row (set_statIndex vc' (Z.of_nat i)) [0; 1; 2; 3] =
        Returns [Some (sqlite3.ResultText (object.ID commit_H1));
                 Some (sqlite3.ResultText name);
                 Some (sqlite3.ResultInt (len lines));
                 Some (sqlite3.ResultInt 0)].
Proof.
  exact (Next_root_one_row_per_file (cursor_with_walker [Ok commit_H1])
           commit_H1 [] [("a.txt", text 5)]
           (index_ok_cursor_with_walker _) ltac:(discriminate)
           eq_refl eq_refl eq_refl).
Defined.

Lemma Next_error_keeps_commit_witness :
  let vc := cursor_with_walker [Err (ErrOther "object not found")] in
  let vc' := set_commitIter vc (Some []) in
  current vc' = current vc /\
  stats vc' = stats vc /\
  statIndex vc' = 0 /\
  Cursor.repo vc' = Cursor.repo vc.
Proof.
  exact (Next_error_keeps_commit
           (cursor_with_walker [Err (ErrOther "object not found")])
           (set_commitIter
              (cursor_with_walker [Err (ErrOther "object not found")])
              (Some []))
           (ErrOther "object not found") eq_refl).
Defined.

Lemma Next_after_EOF_stays_exhausted_witness :
  EOF (set_current cursor_on_H1 None) = true /\
  exists vc', Next_times 3 (set_current cursor_on_H1 None)
              = Returns (vc', None) /\ EOF vc' = true.
Proof.
  apply (Next_after_EOF_stays_exhausted cursor_on_H1
           (set_current cursor_on_H1 None) 3).
  - split; [left; reflexivity | apply small_fits; simpl; lia].
  - discriminate.
  - reflexivity.
  - reflexivity.
Defined.

Lemma Next_without_commits_panics_witness :
  EOF (new_statsCursor (Some unborn_repo)) = true /\
  Next (new_statsCursor (Some unborn_repo)) = Panics NilDereference.
Proof.
  exact (Next_without_commits_panics unborn_repo
           (new_statsCursor (Some unborn_repo)) eq_refl
           (used_open unborn_repo)).
Defined.

Lemma Filter_error_keeps_position_witness :
  let r := scenarioA (Err (ErrOther "object not found")) in
  let vc := new_statsCursor (Some r) in
  let vc' := set_commitIter vc (Some []) in
  current vc' = current vc /\
  stats vc' = stats vc /\
  statIndex vc' = statIndex vc /\
  Cursor.repo vc' = Cursor.repo vc.
Proof.
  exact (Filter_error_keeps_position
           (new_statsCursor
              (Some (scenarioA (Err (ErrOther "object not found")))))
           (set_commitIter
              (new_statsCursor
                 (Some (scenarioA (Err (ErrOther "object not found")))))
              (Some []))
           (ErrOther "object not found") 0 "" [] eq_refl).
Defined.

Lemma Filter_success_cases_witness :
  (git.Head scenarioB = Err ErrReferenceNotFound /\
   cursor_on_H2 = cursor_on_H1) \/
  (exists tip c rest st,
     git.Head scenarioB = Ok tip /\
     git.Log scenarioB
       {| git.From := tip; git.Order := git.LogOrderCommitterTime |}
       = Ok (Ok c :: rest) /\
     object.Stats c = Ok st /\
     cursor_on_H2 = {| Cursor.repo := Some scenarioB; current := Some c;
                       stats := st; statIndex := 0;
                       commitIter := Some rest |} /\
     EOF cursor_on_H2 = false).
Proof.
  exact (Filter_success_cases scenarioB cursor_on_H1 cursor_on_H2 0 "" []
           eq_refl eq_refl).
Defined.

Lemma Filter_empty_walker_fails_witness :
  Filter (new_statsCursor (Some empty_log_repo)) 0 "" []
    = Returns (set_commitIter (new_statsCursor (Some empty_log_repo))
                              (Some []), Some io_EOF).
Proof.
  exact (Filter_empty_walker_fails empty_log_repo
           (new_statsCursor (Some empty_log_repo)) "H" 0 "" []
           eq_refl eq_refl eq_refl).
Defined.

Lemma used_cursor_row_readable_witness :
  exists c st,
    current cursor_on_H1 = Some c /\
    In st (stats cursor_on_H1) /\
    read_row cursor_on_H1 [0; 1; 2; 3] = Returns (full_row c st).
Proof.
  apply (used_cursor_row_readable scenarioB cursor_on_H1 scenarioB_fits
           used_cursor_on_H1); [reflexivity | discriminate].
Defined.

Lemma readable_scenarioB :
  readable_first commit_H2 (stats cursor_on_H2) /\
  Forall2 readable_next [commit_H1] [stats cursor_on_H1].
Proof.
  split.
  - split; [reflexivity | apply small_fits; simpl; lia].
  - repeat constructor. apply small_fits; simpl; lia.
Qed.

Lemma scan_yields_every_commit_file_pair_witness :
  exists fuel0, forall fuel, (fuel0 <= fuel)%nat ->
    scan fuel [0; 1; 2; 3] (new_statsCursor (Some scenarioB)) =
      Some (flat_map (fun g => map (full_row (fst g)) (snd g))
                     [(commit_H2, stats cursor_on_H2);
                      (commit_H1, stats cursor_on_H1)],
            Finished).
Proof.
  apply (scan_yields_every_commit_file_pair scenarioB "H2" commit_H2
           [commit_H1] (stats cursor_on_H2) [stats cursor_on_H1]).
  - reflexivity.
  - reflexivity.
  - exact (proj1 readable_scenarioB).
  - exact (proj2 readable_scenarioB).
  - repeat constructor; discriminate.
Defined.

Lemma scan_stops_at_commit_without_stats_witness :
  exists fuel0, forall fuel, (fuel0 <= fuel)%nat ->
    scan fuel [0; 1; 2; 3] (new_statsCursor (Some repo_with_empty_commit)) =
      Some (flat_map (fun g => map (full_row (fst g)) (snd g))
                     [(commit_H2, stats cursor_on_H2)],
            Crashed IndexOutOfRange).
Proof.
  apply (scan_stops_at_commit_without_stats repo_with_empty_commit "H2"
           commit_H2 [commit_same_tree; commit_H1]
           (stats cursor_on_H2) [[]; stats cursor_on_H1]
           [(commit_H2, stats cursor_on_H2)]
           [(commit_H1, stats cursor_on_H1)] commit_same_tree).
  - reflexivity.
  - reflexivity.
  - exact (proj1 readable_scenarioB).
  - constructor; [|exact (proj2 readable_scenarioB)].
    split; [reflexivity | apply small_fits; simpl; lia].
  - reflexivity.
  - repeat constructor; discriminate.
Defined.

Lemma scan_always_ends_witness :
  exists res fuel0, forall fuel, (fuel0 <= fuel)%nat ->
    scan fuel [0; 1; 2; 3] cursor_on_H1 = Some res.
Proof.
  exact (scan_always_ends scenarioB cursor_on_H1 [0; 1; 2; 3] scenarioB_fits
           used_cursor_on_H1).
Defined.

Lemma Close_then_scan_witness :
  snd (Close (fun it => it) cursor_on_H2) = None /\
  EOF (fst (Close (fun it => it) cursor_on_H2)) = true /\
  forall fuel cols,
    scan fuel cols (fst (Close (fun it => it) cursor_on_H2))
      = scan fuel cols (new_statsCursor (Some scenarioB)).
Proof.
  apply (Close_then_scan (fun it => it) scenarioB cursor_on_H2).
  apply (used_Filter scenarioB (new_statsCursor (Some scenarioB))
           cursor_on_H2 None 0 "" []); [apply used_open | reflexivity].
Defined.

Lemma Create_drops_first_and_last_byte_witness :
  exists a3 b1 b2,
    nth_error sample_args 3 = Some a3 /\
    a3 = String b1 ("/repo" ++ String b2 EmptyString)%string /\
    strlen "/repo" = strlen a3 - 2.
Proof.
  exact (@Create_drops_first_and_last_byte accepting_host [] sample_args
           {| repoPath := "/repo"; Table.repo := None |} eq_refl).
Defined.

Lemma Create_declares_before_panic_witness :
  @Create accepting_host [] ["git_stats"; "main"; "stats"] =
    ([schema (quoted "git_stats")], Panics IndexOutOfRange).
Proof.
  exact (@Create_declares_before_panic accepting_host []
           ["git_stats"; "main"; "stats"] "git_stats" eq_refl eq_refl eq_refl).
Defined.

Lemma RemoveAll_is_the_last_call_witness :
  let f := flags "https://host/a/b" "" false in
  let tr := fst (cmd.Run sample_world f ["SELECT 1"]) in
  (exists cwd t ssh,
     cmd.os_Getwd sample_world = Ok cwd /\
     cmd.ioutil_TempDir sample_world = Ok t /\
     In (cmd.Clone (cmd.choose_repo f ["SELECT 1"] cwd) t ssh) tr /\
     cmd.git_Clone sample_world (cmd.choose_repo f ["SELECT 1"] cwd) t ssh
       = None /\
     (if String.eqb t ""
      then cmd.filepath_Abs sample_world (cmd.choose_repo f ["SELECT 1"] cwd)
      else cmd.filepath_Abs sample_world t) = Ok "/tmp/repo1") /\
  exists pre,
    Forall not_RemoveAll pre /\
    ((cmd.Return = cmd.Return /\
      cmd.os_RemoveAll sample_world "/tmp/repo1" = None /\
      tr = pre ++ [cmd.RemoveAll "/tmp/repo1"]) \/
     (exists e, cmd.Return = cmd.Exit 1 /\
                cmd.os_RemoveAll sample_world "/tmp/repo1" = Some e /\
                tr = pre ++ [cmd.RemoveAll "/tmp/repo1"; cmd.Println e])).
Proof.
  apply (RemoveAll_is_the_last_call unit unit sample_world
           (flags "https://host/a/b" "" false) ["SELECT 1"]
           _ cmd.Return "/tmp/repo1").
  - reflexivity.
  - simpl. intuition.
Defined.

Lemma Exit_skips_the_removal_witness :
  cmd.Run failing_world (flags "https://host/a/b" "" false) ["SELECT 1"] =
    ([cmd.TempDir; cmd.Clone "https://host/a/b" "/tmp/repo1" false;
      cmd.New "/tmp/repo1" false; cmd.Query "SELECT 1";
      cmd.Println (ErrOther "no such table")], cmd.Exit 1) /\
  forall d,
    ~ In (cmd.RemoveAll d)
         (fst (cmd.Run failing_world (flags "https://host/a/b" "" false)
                 ["SELECT 1"])).
Proof.
  split; [reflexivity|].
  exact (Exit_skips_the_removal unit unit failing_world
           (flags "https://host/a/b" "" false) ["SELECT 1"] _ 1
           (fun _ => eq_refl) eq_refl).
Defined.

Lemma Unknown_preset_exits_witness :
  cmd.Run sample_world (flags "." "authors" false) [] =
    ([cmd.Println (ErrOther "Unknown Preset Query: authors")], cmd.Exit 1).
Proof.
  apply (Unknown_preset_exits unit unit sample_world
           (flags "." "authors" false) "/home/u");
    try reflexivity. discriminate.
Defined.

Lemma No_query_prints_help_witness :
  cmd.Run sample_world (flags "." "" false) [] = ([cmd.Help], cmd.Exit 0).
Proof.
  exact (No_query_prints_help unit unit sample_world (flags "." "" false)
           "/home/u" eq_refl eq_refl eq_refl eq_refl).
Defined.

Lemma Positional_repo_ignored_witness :
  cmd.Run sample_world (flags "." "" false) ["SELECT 1"; "/other"] =
  cmd.Run sample_world (flags "." "" false) ["SELECT 1"].
Proof.
  apply (Positional_repo_ignored unit unit sample_world (flags "." "" false)
           "SELECT 1" ["/other"] []).
  discriminate.
Defined.

(** ** The committer-time walker *)







Section Walker.
Variable r : git.Repository.
Variable tip : string.
Hypothesis stored_by_hash :
  forall h c, git.CommitObject r h = Some c -> object.Hash c = h.







End Walker.

(** ** The lines of a file and the statistics of a root commit *)













(** ** The scan follows the walker *)






(** ** The walker and the scan at concrete repositories *)









(** A root commit with an empty file and a binary file: positioned by
    [Filter] it has the row of the text file only; reached by [Next] it
    has a row for each file.  Every row carries the number of lines of
    its file and no deletion. *)
Example root_commit_rows_mixed_tree :
  root_commit_of commit_mixed mixed_tree /\
  object.Stats commit_mixed =
    Ok [{| object.Name := "notes"; object.Addition := 2;
           object.Deletion := 0 |}] /\
  next_stats commit_mixed =
    Returns (Ok [{| object.Name := "empty"; object.Addition := 0;
                    object.Deletion := 0 |};
                 {| object.Name := "logo.png"; object.Addition := 1;
                    object.Deletion := 0 |};
                 {| object.Name := "notes"; object.Addition := 2;
                    object.Deletion := 0 |}]).
Proof. repeat split. Qed.

Lemma Run_starts_UI_only_when_interactive_witness :
  cmd.cui (flags "." "" false) = false /\
  Forall (fun e => forall r d q, e <> cmd.RunGUI r d q)
         (fst (cmd.Run sample_world (flags "." "" false) ["SELECT 1"])).
Proof.
  split; [reflexivity|]. apply Forall_forall.
  apply (Run_starts_UI_only_when_interactive unit unit sample_world
           (flags "." "" false) ["SELECT 1"]).
  reflexivity.
Defined.
